(** * cf_ai_robin: status poller, approval workflow and HTTP boundary

    A shallow embedding of the three pieces of the repository:
    - the React hook [useStatusPolling] (the client-side status poller),
    - [MyWorkflow.run] (the two-gate approval workflow),
    - the worker's [fetch] handler (the HTTP boundary),
    followed by the properties proved about them. *)

From Stdlib Require Import ZArith.
From stdpp Require Import gmap strings list fin_maps.

Open Scope string_scope.

(** ** JavaScript values, as far as the code inspects them *)

(** The values the code reads out of JSON payloads and event payloads.
    [JObject] stands for any object or array: the code never looks inside
    one of those, it only tests it for truthiness or [typeof]. *)
Inductive jsval : Type :=
| JUndefined
| JNull
| JBool (b : bool)
| JNum (n : Z)
| JStr (s : string)
| JObject.

(** JavaScript's ToBoolean (JSON carries no NaN). *)
Definition truthy (v : jsval) : bool :=
  match v with
  | JUndefined | JNull => false
  | JBool b => b
  | JNum n => negb (n =? 0)%Z
  | JStr s => negb (s =? "")
  | JObject => true
  end.

(** [v === 'lit'] for a string literal. *)
Definition strict_eq_str (v : jsval) (lit : string) : bool :=
  match v with
  | JStr s => s =? lit
  | _ => false
  end.

(** [typeof v === 'boolean'] *)
Definition is_boolean (v : jsval) : bool :=
  match v with
  | JBool _ => true
  | _ => false
  end.

(** ** Statements with effects, [return] and exceptions

    A statement runs from a store [St], appends the effects it performs
    (of type [Ev]) to a trace, and completes normally, by a [return] of
    the enclosing function, or by throwing. *)
Section Exec.
Context {St Ev Ex R : Type}.

Inductive completion (A : Type) : Type :=
  | Normal (a : A)
  | Return (r : R)
  | Throw (e : Ex).
Global Arguments Normal {A} a.
Global Arguments Return {A} r.
Global Arguments Throw {A} e.

Record outcome (A : Type) : Type := Outcome {
  trace : list Ev;
  final : St;
  result : completion A;
}.
Global Arguments Outcome {A} trace final result.
Global Arguments trace {A} o.
Global Arguments final {A} o.
Global Arguments result {A} o.

Definition exec (A : Type) : Type := St → outcome A.

Definition ret {A} (a : A) : exec A := λ s, Outcome [] s (Normal a).

Definition bind {A B} (m : exec A) (k : A → exec B) : exec B :=
  λ s,
    match m s with
    | Outcome t s' (Normal a) =>
        match k a s' with
        | Outcome t' s'' r => Outcome (t ++ t') s'' r
        end
    | Outcome t s' (Return r) => Outcome t s' (Return r)
    | Outcome t s' (Throw e) => Outcome t s' (Throw e)
    end.

(** [return r;] *)
Definition return_ {A} (r : R) : exec A := λ s, Outcome [] s (Return r).

(** [throw e;] *)
Definition throw {A} (e : Ex) : exec A := λ s, Outcome [] s (Throw e).

(** [try { body } catch (e) { handler e }]: only a throw enters the
    handler; a [return] inside the body leaves the function. *)
Definition try_catch {A} (body : exec A) (handler : Ex → exec A) : exec A :=
  λ s,
    match body s with
    | Outcome t s' (Throw e) =>
        match handler e s' with
        | Outcome t' s'' r => Outcome (t ++ t') s'' r
        end
    | o => o
    end.

(** One observable effect. *)
Definition emit (e : Ev) : exec unit := λ s, Outcome [e] s (Normal tt).

Definition get : exec St := λ s, Outcome [] s (Normal s).
Definition modify (f : St → St) : exec unit := λ s, Outcome [] (f s) (Normal tt).

(** [if (c) { body }] with no [else]. *)
Definition when (c : bool) (body : exec unit) : exec unit :=
  if c then body else ret tt.

(** [xs.forEach(body)] *)
Fixpoint for_each {A} (xs : list A) (body : A → exec unit) : exec unit :=
  match xs with
  | [] => ret tt
  | x :: xs' => bind (body x) (λ _, for_each xs' body)
  end.
End Exec.

Arguments exec : clear implicits.
Arguments outcome : clear implicits.
Arguments completion : clear implicits.

Notation "x <- m ;; k" := (bind m (λ x, k))
  (at level 100, m at next level, right associativity,
   format "'[v' x  <-  m  ;;  '/' k ']'").
Notation "m ;;; k" := (bind m (λ _, k))
  (at level 100, right associativity,
   format "'[v' m  ;;;  '/' k ']'").

(** ** The status poller: the hook [useStatusPolling] *)
Module Poller.

(** The object passed to [onStatusUpdate]. A key left out of the object
    literal reads as [undefined]. *)
Record UploadedImage : Type := {
  fileName : string;
  status : jsval;
  instanceId : string;
  aiTags : jsval;
  aiAltText : jsval;
}.

(** The fields the poller reads out of a parsed JSON body. A body that is
    a number, a string or a boolean reads as [undefined] at every field. *)
Record payload : Type := {
  p_status : jsval;
  p_error : jsval;
  p_altText : jsval;
  p_tags : jsval;
}.

(** What [await response.json()] gives. *)
Inductive json_result : Type :=
  | JsonReject                 (* the promise rejects: the body is not JSON *)
  | JsonNull                   (* the body is the JSON value null *)
  | JsonValue (p : payload).

(** What [await fetch(url)] gives. *)
Inductive fetch_result : Type :=
  | NetworkError
  | Response (ok : bool) (http_status : Z) (body : json_result).

(** The values a [catch] clause of the hook can receive. *)
Inductive exn : Type :=
  | Error (message : string) (http_status : Z)   (* new Error(`${message}${status}`) *)
  | FetchRejected                                (* fetch() or json() rejected *)
  | TypeError.                                   (* a property read on null *)

(** A handle returned by [setInterval]. The hook is a React hook: its
    effect and its intervals run in the browser, where [setInterval]
    returns an integer greater than zero (the annotation [NodeJS.Timeout]
    is a type of the build only). A handle is therefore a truthy number. *)
Definition timer : Type := positive.

(** An interval registered with the runtime: the arguments captured by
    the callback [() => pollStatus(instanceId, fileName)] and the delay. *)
Record interval : Type := {
  i_instanceId : string;
  i_fileName : string;
  i_delay : Z;
}.

(** The store of the hook and of the runtime's timers.

    The table [pollingIntervals.current] is a plain object, created by
    the literal [{}]: [pollingIntervals] holds its own properties, and its
    prototype is [Object.prototype] throughout. What the prototype adds
    is written out where the table is used: in [assign] for the one
    write, in [stopPolling] for the read and the [delete]; the teardown
    enumerates own properties only. *)
Record state : Type := {
  pollingIntervals : gmap string timer;   (* the own properties of
                                             pollingIntervals.current *)
  timers : gmap timer interval;           (* the runtime's active intervals *)
  next_timer : timer;                     (* the next handle setInterval gives out *)
}.

Inductive event : Type :=
  | Fetch (url : string)
  | OnStatusUpdate (image : UploadedImage)
  | ConsoleError (label : string) (e : exn)
  | ConsoleLog (label : string).

Abbreviation M := (exec state event exn Empty_set).

Definition init : state :=
  {| pollingIntervals := ∅; timers := ∅; next_timer := 1%positive |}.

(** [clearInterval(h)] *)
Definition clearInterval (h : timer) : M unit :=
  modify (λ s, {| pollingIntervals := pollingIntervals s;
                  timers := delete h (timers s);
                  next_timer := next_timer s |}).

(** [setInterval(cb, delay)]: registers the interval under a fresh handle. *)
Definition setInterval (cb : interval) : M timer :=
  s <- get ;;
  modify (λ s, {| pollingIntervals := pollingIntervals s;
                  timers := <[next_timer s := cb]> (timers s);
                  next_timer := Pos.succ (next_timer s) |}) ;;;
  ret (next_timer s).

(** [table[key] = h], for a handle [h]. The assignment writes the own
    property [key] when the table has one, and creates it otherwise,
    except at the key '__proto__': with no own property of that name the
    assignment reaches the accessor [__proto__] of [Object.prototype],
    whose setter ignores a value that is neither an object nor null. The
    handle, a number, is then recorded nowhere. *)
Definition assign (key : string) (h : timer) (table : gmap string timer)
  : gmap string timer :=
  match table !! key with
  | Some _ => <[key := h]> table
  | None => if key =? "__proto__" then table else <[key := h]> table
  end.

Section Hook.
(** [API_BASE_URL], imported from [@/app/constant]. *)
Variable API_BASE_URL : string.
(** The responses of the network, by URL. The three URLs of one tick
    differ, so this loses nothing over one answer per request. *)
Variable net : string → fetch_result.

(** The callback of the hook's owner; it is taken not to throw. *)
Definition onStatusUpdate (image : UploadedImage) : M unit :=
  emit (OnStatusUpdate image).

Definition fetch (url : string) : M fetch_result :=
  emit (Fetch url) ;;;
  match net url with
  | NetworkError => throw FetchRejected
  | r => ret r
  end.

Definition response_ok (r : fetch_result) : bool :=
  match r with
  | Response ok _ _ => ok
  | NetworkError => false
  end.

Definition response_status (r : fetch_result) : Z :=
  match r with
  | Response _ st _ => st
  | NetworkError => 0
  end.

(** [await response.json()] *)
Definition json (r : fetch_result) : M (option payload) :=
  match r with
  | Response _ _ (JsonValue p) => ret (Some p)
  | Response _ _ JsonNull => ret None
  | _ => throw FetchRejected
  end.

(** [data.f] *)
Definition field (data : option payload) (f : payload → jsval) : M jsval :=
  match data with
  | Some p => ret (f p)
  | None => throw TypeError
  end.

(** With no own property [instanceId] the read gives [undefined], or,
    at a key of [Object.prototype] ('__proto__', 'constructor',
    'toString', ...), the object or function found there. That value is
    truthy, but [clearInterval] of a value that is not the number of an
    interval cancels nothing and [delete] of a key that is not an own
    property removes nothing: either way the store stays as it is. *)
Definition stopPolling (instanceId : string) : M unit :=
  s <- get ;;
  match pollingIntervals s !! instanceId with
  | Some h =>
      (* a timer handle is truthy *)
      clearInterval h ;;;
      modify (λ s, {| pollingIntervals := delete instanceId (pollingIntervals s);
                      timers := timers s;
                      next_timer := next_timer s |})
  | None => ret tt
  end.

Definition handleError (instanceId fileName : string) : M unit :=
  onStatusUpdate {| fileName := fileName; status := JStr "error";
                    instanceId := instanceId;
                    aiTags := JUndefined; aiAltText := JUndefined |} ;;;
  stopPolling instanceId.

Definition fetchWorkflowRes (instanceId fileName : string) : M unit :=
  try_catch
    (altTextResponse <- fetch (API_BASE_URL ++ "/alttext?instanceId=" ++ instanceId) ;;
     when (negb (response_ok altTextResponse))
       (throw (Error "Failed to fetch tags: " (response_status altTextResponse))) ;;;
     altTextData <- json altTextResponse ;;
     emit (ConsoleLog "Tags response:") ;;;
     tagsResponse <- fetch (API_BASE_URL ++ "/tags?instanceId=" ++ instanceId) ;;
     when (negb (response_ok tagsResponse))
       (throw (Error "Failed to fetch tags: " (response_status tagsResponse))) ;;;
     tagsData <- json tagsResponse ;;
     tags <- field tagsData p_tags ;;
     altText <- field altTextData p_altText ;;
     onStatusUpdate {| fileName := fileName; status := JStr "complete";
                       instanceId := instanceId;
                       aiTags := tags; aiAltText := altText |} ;;;
     stopPolling instanceId)
    (λ error,
       emit (ConsoleError "Error fetching AI tags:" error) ;;;
       handleError instanceId fileName).

Definition pollStatus (instanceId fileName : string) : M unit :=
  try_catch
    (response <- fetch (API_BASE_URL ++ "/?instanceId=" ++ instanceId) ;;
     when (negb (response_ok response))
       (throw (Error "Failed to fetch status: " (response_status response))) ;;;
     data <- json response ;;
     st <- field data p_status ;;
     onStatusUpdate {| fileName := fileName; status := st;
                       instanceId := instanceId;
                       aiTags := JUndefined; aiAltText := JUndefined |} ;;;
     if strict_eq_str st "complete" then
       fetchWorkflowRes instanceId fileName ;;;
       stopPolling instanceId
     else
       err <- field data p_error ;;
       when (truthy err) (handleError instanceId fileName))
    (λ error,
       emit (ConsoleError "Error polling status:" error) ;;;
       handleError instanceId fileName).

Definition startPolling (instanceId fileName : string) : M unit :=
  stopPolling instanceId ;;;
  h <- setInterval {| i_instanceId := instanceId; i_fileName := fileName;
                      i_delay := 3000 |} ;;
  modify (λ s, {| pollingIntervals := assign instanceId h (pollingIntervals s);
                  timers := timers s;
                  next_timer := next_timer s |}).

(** The cleanup returned by the effect:
    [Object.values(pollingIntervals.current).forEach(clearInterval)].
    [Object.values] lists the values of the own properties. *)
Definition cleanup : M unit :=
  s <- get ;;
  for_each (map_to_list (pollingIntervals s)).*2 clearInterval.
End Hook.

(** The recurring queries the runtime holds for one identifier. *)
Definition active (id : string) (s : state) : gmap timer interval :=
  filter (λ kv, i_instanceId kv.2 = id) (timers s).

(** Polling for [id] has stopped: the table has no entry for it and the
    runtime holds no interval that would query it. *)
Definition polling_stopped (id : string) (s : state) : Prop :=
  pollingIntervals s !! id = None ∧ active id s = ∅.

(** The images handed to [onStatusUpdate], oldest first. *)
Definition callbacks (t : list event) : list UploadedImage :=
  omap (λ ev, match ev with OnStatusUpdate i => Some i | _ => None end) t.

(** The URLs queried, oldest first. *)
Definition fetches (t : list event) : list string :=
  omap (λ ev, match ev with Fetch u => Some u | _ => None end) t.

(** The store after [stopPolling id]. *)
Definition stopped (id : string) (s : state) : state :=
  match pollingIntervals s !! id with
  | Some h => {| pollingIntervals := delete id (pollingIntervals s);
                 timers := delete h (timers s);
                 next_timer := next_timer s |}
  | None => s
  end.

(** The store after [startPolling id f]. *)
Definition started (id f : string) (s : state) : state :=
  let s' := stopped id s in
  {| pollingIntervals := assign id (next_timer s') (pollingIntervals s');
     timers := <[next_timer s' := {| i_instanceId := id; i_fileName := f;
                                     i_delay := 3000 |}]> (timers s');
     next_timer := Pos.succ (next_timer s') |}.

(** The invariant of the interval table: every interval of the runtime
    that queries an identifier other than '__proto__' is the one the
    table records for that identifier; the table has no own entry
    '__proto__'; an entry whose interval the runtime still holds queries
    the entry's own identifier; no two entries share a handle; every
    interval fires every 3000 ms; and no handle in use has yet to be
    handed out. *)
Record wf (s : state) : Prop := {
  wf_recorded : ∀ h cb,
    timers s !! h = Some cb → i_instanceId cb ≠ "__proto__" →
    pollingIntervals s !! i_instanceId cb = Some h;
  wf_no_proto : pollingIntervals s !! "__proto__" = None;
  wf_own : ∀ id h cb,
    pollingIntervals s !! id = Some h → timers s !! h = Some cb →
    i_instanceId cb = id;
  wf_inj : ∀ id1 id2 h,
    pollingIntervals s !! id1 = Some h → pollingIntervals s !! id2 = Some h →
    id1 = id2;
  wf_delay : ∀ h cb, timers s !! h = Some cb → i_delay cb = 3000%Z;
  wf_timers_lt : ∀ h cb, timers s !! h = Some cb → (h < next_timer s)%positive;
  wf_table_lt : ∀ id h, pollingIntervals s !! id = Some h → (h < next_timer s)%positive;
}.

(** The URLs of the three queries for one identifier. *)
Definition status_url (API_BASE_URL id : string) : string :=
  API_BASE_URL ++ "/?instanceId=" ++ id.
Definition alttext_url (API_BASE_URL id : string) : string :=
  API_BASE_URL ++ "/alttext?instanceId=" ++ id.
Definition tags_url (API_BASE_URL id : string) : string :=
  API_BASE_URL ++ "/tags?instanceId=" ++ id.

(** The callback arguments the hook builds. *)
Definition verbatim_image (id f : string) (st : jsval) : UploadedImage :=
  {| fileName := f; status := st; instanceId := id;
     aiTags := JUndefined; aiAltText := JUndefined |}.
Definition error_image (id f : string) : UploadedImage :=
  verbatim_image id f (JStr "error").
Definition complete_image (id f : string) (tags altText : jsval) : UploadedImage :=
  {| fileName := f; status := JStr "complete"; instanceId := id;
     aiTags := tags; aiAltText := altText |}.

(** The payload of a follow-up response the hook accepts. *)
Definition accepted (r : fetch_result) : option payload :=
  match r with
  | Response true _ (JsonValue p) => Some p
  | _ => None
  end.

(** The response passed the [ok] test and its body parsed (possibly to
    null): the hook goes on to its next statement. *)
Definition parsed (r : fetch_result) : bool :=
  match r with
  | Response true _ (JsonValue _) | Response true _ JsonNull => true
  | _ => false
  end.

(** What [fetchWorkflowRes] throws on a follow-up response before it uses
    the payload: a rejected [fetch], the error it builds for a response
    that is not [ok], a rejected [json()]. *)
Definition refused (r : fetch_result) : option exn :=
  match r with
  | NetworkError => Some FetchRejected
  | Response false code _ => Some (Error "Failed to fetch tags: " code)
  | Response true _ JsonReject => Some FetchRejected
  | Response true _ _ => None
  end.

(** The effects of the follow-up of a completed run, in order, by the
    answers [alt] and [tags] to its two queries. *)
Definition follow_up_trace (API_BASE_URL id f : string) (alt tags : fetch_result)
  : list event :=
  let failed e := [ConsoleError "Error fetching AI tags:" e;
                   OnStatusUpdate (error_image id f)] in
  Fetch (alttext_url API_BASE_URL id) ::
  match refused alt with
  | Some e => failed e
  | None =>
      ConsoleLog "Tags response:" :: Fetch (tags_url API_BASE_URL id) ::
      match refused tags with
      | Some e => failed e
      | None =>
          match accepted tags, accepted alt with
          | Some pt, Some pa =>
              [OnStatusUpdate (complete_image id f (p_tags pt) (p_altText pa))]
          | _, _ => failed TypeError
          end
      end
  end.

(** The stores the hook can be in: it starts from [init]; its owner calls
    [startPolling]; an interval of the runtime fires a tick; the teardown
    of the effect runs [cleanup] (a tick already in flight may still end
    after it). A tick in flight touches the store through [stopPolling]
    only, whatever else runs between its awaits. *)
Inductive reachable (API_BASE_URL : string) : state → Prop :=
| reach_init : reachable API_BASE_URL init
| reach_start s id f :
    reachable API_BASE_URL s →
    reachable API_BASE_URL (final (startPolling id f s))
| reach_tick s net h cb :
    reachable API_BASE_URL s →
    timers s !! h = Some cb →
    reachable API_BASE_URL
      (final (pollStatus API_BASE_URL net (i_instanceId cb) (i_fileName cb) s))
| reach_stop s id :
    reachable API_BASE_URL s →
    reachable API_BASE_URL (final (stopPolling id s))
| reach_cleanup s :
    reachable API_BASE_URL s →
    reachable API_BASE_URL (final (cleanup s)).

(** Sample inputs: a base URL, a poll in progress, and three networks. *)
Module Sample.
Definition base : string := "https://api.example".

(** The store after [startPolling('i1', 'cat.png')] on a fresh hook. *)
Definition polling : state := final (startPolling "i1" "cat.png" init).

Definition body (st err altText tags : jsval) : json_result :=
  JsonValue {| p_status := st; p_error := err; p_altText := altText; p_tags := tags |}.

(** The workflow is complete and both follow-up queries succeed. *)
Definition net_complete (url : string) : fetch_result :=
  if url =? status_url base "i1" then
    Response true 200 (body (JStr "complete") JUndefined JUndefined JUndefined)
  else if url =? alttext_url base "i1" then
    Response true 200 (body JUndefined JUndefined (JStr "a cat on a sofa") JUndefined)
  else if url =? tags_url base "i1" then
    Response true 200 (body JUndefined JUndefined JUndefined (JStr "cat, sofa"))
  else NetworkError.

(** As [net_complete], with an error indicator next to the status. *)
Definition net_complete_with_error (url : string) : fetch_result :=
  if url =? status_url base "i1" then
    Response true 200 (body (JStr "complete") (JStr "step failed") JUndefined JUndefined)
  else net_complete url.

(** The status endpoint answers 500. *)
Definition net_down (url : string) : fetch_result :=
  Response false 500 JsonReject.

(** The status payload reports a failed run. *)
Definition net_errored (url : string) : fetch_result :=
  Response true 200 (body (JStr "errored") (JStr "step failed") JUndefined JUndefined).
End Sample.

End Poller.

(** ** The approval workflow: [MyWorkflow.run] *)
Module Workflow.

(** [AI_TAGS_CONFIG] and [AI_ALT_TEXT_CONFIG] of config.ts. *)
Record ai_config : Type := {
  MODEL : string;
  PROMPT : string;
  MAX_TOKENS : Z;
}.

Definition AI_TAGS_CONFIG : ai_config :=
  {| MODEL := "@cf/llava-hf/llava-1.5-7b-hf";
     PROMPT := "Give me 5 different single word description tags for the image. Return them as a comma separated list with only the tags, no other text.";
     MAX_TOKENS := 512 |}.

Definition AI_ALT_TEXT_CONFIG : ai_config :=
  {| MODEL := "@cf/llava-hf/llava-1.5-7b-hf";
     PROMPT := "Give me an alt text description for this image, return this as a single setence with only the alt text description, no other text";
     MAX_TOKENS := 512 |}.

(** The argument of [env.AI.run]. *)
Record ai_input : Type := {
  image : list Byte.byte;
  prompt : string;
  max_tokens : Z;
}.

(** Modelled from the spec: [DatabaseService] (services/database is not
    among the sources). The store is keyed by instance identifier; a
    submission has an image key and two optional derived texts, [tags]
    and [altText], which [insertImage] leaves unset and which only
    [updateImageTags] and [updateImageAltText] set. *)
Record submission : Type := {
  imageKey : string;
  tags : option string;
  altText : option string;
}.

(** Modelled from the spec: the three queries of [DatabaseService] that
    [run] issues, under the names the source calls them by. *)
Inductive db_request : Type :=
  | insertImage (imageKey instanceId : string)
  | updateImageTags (instanceId : string) (aiTags : string)
  | updateImageAltText (instanceId : string) (aiAltText : string).

(** Modelled from the spec: what a query of [DatabaseService] does to the
    store. [insertImage] records a submission with neither derived text;
    an update sets its field and leaves the rest of the record alone. *)
Definition db_apply (q : db_request) (db : gmap string submission)
  : gmap string submission :=
  match q with
  | insertImage k i =>
      <[i := {| imageKey := k; tags := None; altText := None |}]> db
  | updateImageTags i t =>
      match db !! i with
      | Some r => <[i := {| imageKey := imageKey r; tags := Some t;
                            altText := altText r |}]> db
      | None => db
      end
  | updateImageAltText i t =>
      match db !! i with
      | Some r => <[i := {| imageKey := imageKey r; tags := tags r;
                            altText := Some t |}]> db
      | None => db
      end
  end.

(** How one approval gate ends. *)
Inductive gate : Type :=
  | SignalArrives (payload : option jsval)
      (* an event of the awaited type arrives in time; [None] is an event
         without payload, [Some v] a payload whose [approved] is [v] *)
  | WindowElapses
      (* no event of the awaited type within the timeout *)
  | WaitRejects.
      (* the engine makes the wait fail for another reason *)

(** The object [await step.waitForEvent(...)] evaluates to. *)
Record wf_event : Type := { payload : option jsval }.

(** The collaborators of one run. *)
Record env : Type := {
  tag_gate : gate;
  alttext_gate : gate;
  bucket_get : string → option (list Byte.byte);   (* null when absent *)
  ai_run : string → ai_input → option string;      (* the description; None: it throws *)
  db_ok : db_request → bool;                       (* false: the query throws *)
}.

Inductive exn : Type :=
  | Error (message : string)
  | Rejected.

Inductive event : Type :=
  | StepDo (name : string)
  | WaitForEvent (name : string) (type : string) (timeout : string)
  | Db (q : db_request)
  | BucketGet (key : string)
  | AiRun (model : string) (input : ai_input).

Abbreviation M := (exec (gmap string submission) event exn Empty_set).

Section Run.
Variable e : env.

(** [step.do(name, fn)]: the callback runs once; what the engine does
    with a failed step (retries) is outside the sources. *)
Definition step_do {A} (name : string) (fn : M A) : M A :=
  emit (StepDo name) ;;; fn.

(** [step.waitForEvent] of the workflow engine ([cloudflare:workers], a
    runtime module outside the sources). The wait resolves with the
    event when one of the awaited type arrives within the timeout. When
    the timeout elapses with no such event the engine rejects the wait;
    it does not resolve it with an event that has no payload. *)
Definition waitForEvent (name type timeout : string) (g : gate) : M wf_event :=
  emit (WaitForEvent name type timeout) ;;;
  match g with
  | SignalArrives p => ret {| payload := p |}
  | WindowElapses => throw Rejected
  | WaitRejects => throw Rejected
  end.

Definition db_query (q : db_request) : M unit :=
  emit (Db q) ;;;
  if db_ok e q then modify (db_apply q) else throw Rejected.

(** [payload?.approved] *)
Definition approved (p : option jsval) : jsval :=
  match p with
  | Some v => v
  | None => JUndefined
  end.

(** The body shared by the steps 'Generate AI tags' and
    'Generate AI Alt Text', which differ in the configuration only. *)
Definition generate (cfg : ai_config) (imageKey : string) : M string :=
  emit (BucketGet imageKey) ;;;
  match bucket_get e imageKey with
  | None => throw (Error "Image not found")
  | Some bytes =>
      let input := {| image := bytes; prompt := PROMPT cfg;
                      max_tokens := MAX_TOKENS cfg |} in
      emit (AiRun (MODEL cfg) input) ;;;
      match ai_run e (MODEL cfg) input with
      | Some description => ret description
      | None => throw Rejected
      end
  end.

Definition run (instanceId imageKey : string) : M unit :=
  step_do "Insert image name into database"
    (db_query (insertImage imageKey instanceId)) ;;;
  waitForTagApproval <-
    waitForEvent "Wait for AI Image tagging approval"
      "approval-for-ai-tagging" "5 minute" (tag_gate e) ;;
  let approvalTagsPayload := payload waitForTagApproval in
  when (truthy (approved approvalTagsPayload))
    (aiTags <- step_do "Generate AI tags" (generate AI_TAGS_CONFIG imageKey) ;;
     step_do "Update DB with AI tags"
       (db_query (updateImageTags instanceId aiTags))) ;;;
  waitForAltTextApproval <-
    waitForEvent "Wait for AI Image alt text approval"
      "approval-for-ai-alttext" "5 minute" (alttext_gate e) ;;
  let approvalAltTextPayload := payload waitForAltTextApproval in
  when (truthy (approved approvalAltTextPayload))
    (aiAltText <- step_do "Generate AI Alt Text"
                    (generate AI_ALT_TEXT_CONFIG imageKey) ;;
     step_do "Update DB with AI Alt text"
       (db_query (updateImageAltText instanceId aiAltText))).
End Run.

(** The two gated stages of [run], each from its wait to the end of its
    conditional. *)
Definition tagging_stage (e : env) (instanceId imageKey : string) : M unit :=
  waitForTagApproval <-
    waitForEvent "Wait for AI Image tagging approval"
      "approval-for-ai-tagging" "5 minute" (tag_gate e) ;;
  let approvalTagsPayload := payload waitForTagApproval in
  when (truthy (approved approvalTagsPayload))
    (aiTags <- step_do "Generate AI tags" (generate e AI_TAGS_CONFIG imageKey) ;;
     step_do "Update DB with AI tags"
       (db_query e (updateImageTags instanceId aiTags))).

Definition alttext_stage (e : env) (instanceId imageKey : string) : M unit :=
  waitForAltTextApproval <-
    waitForEvent "Wait for AI Image alt text approval"
      "approval-for-ai-alttext" "5 minute" (alttext_gate e) ;;
  let approvalAltTextPayload := payload waitForAltTextApproval in
  when (truthy (approved approvalAltTextPayload))
    (aiAltText <- step_do "Generate AI Alt Text"
                    (generate e AI_ALT_TEXT_CONFIG imageKey) ;;
     step_do "Update DB with AI Alt text"
       (db_query e (updateImageAltText instanceId aiAltText))).

(** A gate whose wait resolves without approval: the event that arrived
    has no payload or a payload whose [approved] is falsy (in particular
    [approved: false]). *)
Definition declined (g : gate) : bool :=
  match g with
  | SignalArrives p => negb (truthy (approved p))
  | WindowElapses => false
  | WaitRejects => false
  end.

(** The effects of the tagging stage: its two steps, an inference call
    with the tagging prompt, a write of the [tags] field. *)
Definition touches_tags (ev : event) : bool :=
  match ev with
  | StepDo name => (name =? "Generate AI tags") || (name =? "Update DB with AI tags")
  | AiRun _ input => prompt input =? PROMPT AI_TAGS_CONFIG
  | Db (updateImageTags _ _) => true
  | _ => false
  end.

(** The effects of the alt-text stage. *)
Definition touches_altText (ev : event) : bool :=
  match ev with
  | StepDo name =>
      (name =? "Generate AI Alt Text") || (name =? "Update DB with AI Alt text")
  | AiRun _ input => prompt input =? PROMPT AI_ALT_TEXT_CONFIG
  | Db (updateImageAltText _ _) => true
  | _ => false
  end.

(** The two waits of a run, as the trace records them. *)
Definition tag_wait : event :=
  WaitForEvent "Wait for AI Image tagging approval" "approval-for-ai-tagging" "5 minute".
Definition alttext_wait : event :=
  WaitForEvent "Wait for AI Image alt text approval" "approval-for-ai-alttext" "5 minute".

(** Sample collaborators: the image is stored, inference and the
    database answer; the tagging signal arrives without payload and the
    alt-text signal with [approved: false]. *)
Module Sample.
Definition bytes : list Byte.byte := [Byte.x89; Byte.x50; Byte.x4e; Byte.x47].

Definition declining : env :=
  {| tag_gate := SignalArrives None;
     alttext_gate := SignalArrives (Some (JBool false));
     bucket_get := λ key, if key =? "k1" then Some bytes else None;
     ai_run := λ _ input,
       Some (if prompt input =? PROMPT AI_TAGS_CONFIG
             then "cat, orange, fur, pet, indoor" else "A cat on a sofa.");
     db_ok := λ _, true |}.

(** As [declining], with tagging approved. *)
Definition approving_tags : env :=
  {| tag_gate := SignalArrives (Some (JBool true));
     alttext_gate := alttext_gate declining;
     bucket_get := bucket_get declining;
     ai_run := ai_run declining;
     db_ok := db_ok declining |}.

(** As [declining], with an engine that rejects the first wait. *)
Definition rejecting : env :=
  {| tag_gate := WaitRejects;
     alttext_gate := alttext_gate declining;
     bucket_get := bucket_get declining;
     ai_run := ai_run declining;
     db_ok := db_ok declining |}.

(** As [declining], with no tagging signal within the 5 minutes and an
    alt-text signal that approves. *)
Definition timing_out : env :=
  {| tag_gate := WindowElapses;
     alttext_gate := SignalArrives (Some (JBool true));
     bucket_get := bucket_get declining;
     ai_run := ai_run declining;
     db_ok := db_ok declining |}.

(** As [declining], with tagging approved and no alt-text signal within
    the 5 minutes. *)
Definition alttext_timing_out : env :=
  {| tag_gate := SignalArrives (Some (JBool true));
     alttext_gate := WindowElapses;
     bucket_get := bucket_get declining;
     ai_run := ai_run declining;
     db_ok := db_ok declining |}.
End Sample.

End Workflow.

(** ** The HTTP boundary: the worker's [fetch] handler *)
Module Worker.

(** [ROUTES] of config.ts. *)
Module ROUTES.
Definition TAGS : string := "/tags".
Definition TAG_APPROVAL : string := "/approval-for-ai-tagging".
Definition ALTTEXT : string := "/alttext".
Definition ALTTEXT_APPROVAL : string := "/approval-for-ai-alttext".
End ROUTES.

(** [HTTP_STATUS] of config.ts. *)
Module HTTP_STATUS.
Definition OK : Z := 200.
Definition BAD_REQUEST : Z := 400.
Definition NOT_FOUND : Z := 404.
Definition METHOD_NOT_ALLOWED : Z := 405.
Definition INTERNAL_SERVER_ERROR : Z := 500.
End HTTP_STATUS.

(** A [File] of an uploaded form. *)
Record File : Type := {
  file_name : string;
  file_bytes : list Byte.byte;
}.

(** What [await req.json()] gives, read as an [ApprovalRequest]. A body
    that is a number, a string, a boolean or an array destructures to two
    undefined fields. *)
Inductive json_body : Type :=
  | BodyReject                                  (* not JSON: the promise rejects *)
  | BodyNull                                    (* the JSON value null *)
  | BodyValue (instanceId approved : jsval).    (* the two fields destructured *)

(** What [formData.get('image')] gives. *)
Inductive form_entry : Type :=
  | NoEntry                  (* null *)
  | TextEntry (s : string)   (* a string field *)
  | FileEntry (f : File).

(** What [await req.formData()] gives; [None]: the promise rejects. *)
Definition form_result : Type := option form_entry.

Record Request : Type := {
  method : string;                        (* req.method *)
  pathname : string;                      (* new URL(req.url).pathname *)
  search_instanceId : option string;      (* url.searchParams.get('instanceId') *)
  content_type : option string;           (* req.headers.get('content-type') *)
  json : json_body;                       (* await req.json() *)
  formData : form_result;                 (* await req.formData() *)
}.

(** A workflow instance handle. *)
Record instance : Type := { id : string }.

(** What [instance.status()] reports; its shape belongs to the engine. *)
Record InstanceStatus : Type := {
  is_status : string;
  is_error : jsval;
}.

(** The collaborators of one request. Every operation is called at most
    once while a request is served, so its answer may be given as a
    function of its arguments; [None] means that the call throws. *)
Record Env : Type := {
  getImageTags : string → option (option string);      (* the text, or null *)
  getImageAltText : string → option (option string);
  workflow_get : jsval → option instance;
  workflow_create : string → option instance;
  sendEvent : instance → string → jsval → bool;        (* false: it throws *)
  instance_status : instance → option InstanceStatus;
  bucket_put : string → File → bool;                   (* false: it throws *)
  nanoid : string;
}.

(** The bodies handed to [ResponseHandler.success]. *)
Inductive success_body : Type :=
  | TagsResponse (instanceId : string) (tags : option string)
  | AltTextResponse (instanceId : string) (altText : option string)
  | ApprovalSent                                      (* { success: true } *)
  | UploadStarted (id : string) (details : InstanceStatus) (message : string)
  | StatusReport (st : InstanceStatus).

(** The calls of [ResponseHandler] the handler returns. *)
Inductive Response : Type :=
  | corsPreflight
  | success (body : success_body)
  | badRequest (message : string)
  | notFound
  | methodNotAllowed
  | error (message : string).

(** Modelled from the spec: [ResponseHandler] (utils/response is not
    among the sources). The preflight answer and a success are 200-class
    responses; error responses use the codes 400, 404, 405 and 500 of
    [HTTP_STATUS], each with a JSON [{error: string}] body. *)
Definition status_code (r : Response) : Z :=
  match r with
  | corsPreflight => HTTP_STATUS.OK
  | success _ => HTTP_STATUS.OK
  | badRequest _ => HTTP_STATUS.BAD_REQUEST
  | notFound => HTTP_STATUS.NOT_FOUND
  | methodNotAllowed => HTTP_STATUS.METHOD_NOT_ALLOWED
  | error _ => HTTP_STATUS.INTERNAL_SERVER_ERROR
  end.

(** Modelled from the spec: whether the body of a [ResponseHandler]
    response is the JSON object [{error: string}]. *)
Definition has_error_body (r : Response) : bool :=
  match r with
  | corsPreflight | success _ => false
  | badRequest _ | notFound | methodNotAllowed | error _ => true
  end.

Inductive event : Type :=
  | DbGetImageTags (instanceId : string)
  | DbGetImageAltText (instanceId : string)
  | ReadJson
  | ReadFormData
  | WorkflowGet (instanceId : jsval)
  | WorkflowCreate (imageKey : string)
  | SendEvent (target : instance) (type : string) (approved : jsval)
  | InstanceStatusQuery (target : instance)
  | Nanoid
  | BucketPut (key : string) (f : File)
  | ConsoleError (label : string).

(** The handler keeps no store of its own. *)
Abbreviation M := (exec unit event unit Response).

(** [s.startsWith(p)] *)
Definition startsWith (s p : string) : bool := String.prefix p s.

(** [s.includes(p)] *)
Fixpoint includes (s p : string) : bool :=
  String.prefix p s ||
  match s with
  | EmptyString => false
  | String _ s' => includes s' p
  end.

Section Handler.
Variable env : Env.
Variable req : Request.

(** An external call that may throw. *)
Definition call {A} (ev : event) (answer : option A) : M A :=
  emit ev ;;;
  match answer with
  | Some a => ret a
  | None => throw tt
  end.

(** The block under the comment 'Handle /tags endpoint'. *)
Definition tags_block : M unit :=
  when (pathname req =? ROUTES.TAGS)
    (match search_instanceId req with
     | None | Some "" =>
         return_ (badRequest "Missing instanceId parameter")
     | Some instanceId =>
         try_catch
           (tags <- call (DbGetImageTags instanceId) (getImageTags env instanceId) ;;
            return_ (success (TagsResponse instanceId tags)))
           (λ _,
              emit (ConsoleError "Error fetching tags:") ;;;
              return_ (error "Error fetching tags"))
     end).

(** The block under 'Handle /alt text endpoint'. *)
Definition alttext_block : M unit :=
  when (pathname req =? ROUTES.ALTTEXT)
    (match search_instanceId req with
     | None | Some "" =>
         return_ (badRequest "Missing instanceId parameter")
     | Some instanceId =>
         try_catch
           (altText <- call (DbGetImageAltText instanceId)
                         (getImageAltText env instanceId) ;;
            return_ (success (AltTextResponse instanceId altText)))
           (λ _,
              emit (ConsoleError "Error fetching alt text:") ;;;
              return_ (error "Error fetching alt text"))
     end).

(** The approval blocks: the one for [ROUTES.TAG_APPROVAL] and the one
    for [ROUTES.ALTTEXT_APPROVAL] differ in the route and in the type
    of the event sent, and in nothing else. *)
Definition approval_block (route type : string) : M unit :=
  when (pathname req =? route)
    (when (negb (method req =? "POST")) (return_ methodNotAllowed) ;;;
     try_catch
       (emit ReadJson ;;;
        match json req with
        | BodyReject => throw tt
        | BodyNull => throw tt     (* destructuring null is a TypeError *)
        | BodyValue instanceId approved =>
            if negb (truthy instanceId) || negb (is_boolean approved) then
              return_ (badRequest "Missing or invalid parameters")
            else
              target <- call (WorkflowGet instanceId)
                          (workflow_get env instanceId) ;;
              call (SendEvent target type approved)
                (if sendEvent env target type approved then Some tt else None) ;;;
              return_ (success ApprovalSent)
        end)
       (λ _,
          emit (ConsoleError "Error processing approval:") ;;;
          return_ (error "Error processing approval"))).

(** The block under 'Handle Creating new image Workflow'. *)
Definition create_block : M unit :=
  when ((method req =? "POST") && (pathname req =? "/"))
    (try_catch
       (match content_type req with
        | None => return_ (badRequest "Invalid content type. Expected multipart/form-data")
        | Some contentType =>
            if negb (truthy (JStr contentType))
               || negb (includes contentType "multipart/form-data")
            then return_ (badRequest "Invalid content type. Expected multipart/form-data")
            else
              image <- call ReadFormData (formData req) ;;
              match image with
              | NoEntry | TextEntry _ =>
                  return_ (badRequest "Missing or invalid image file")
              | FileEntry f =>
                  emit Nanoid ;;;
                  let imageKey := nanoid env in
                  call (BucketPut imageKey f)
                    (if bucket_put env imageKey f then Some tt else None) ;;;
                  target <- call (WorkflowCreate imageKey)
                              (workflow_create env imageKey) ;;
                  details <- call (InstanceStatusQuery target)
                               (instance_status env target) ;;
                  return_ (success (UploadStarted (id target) details
                                      "Image upload started successfully"))
              end
        end)
       (λ _,
          emit (ConsoleError "Error processing image upload:") ;;;
          return_ (error "Error processing image upload"))).

(** The block under 'Get the status of an existing instance'. *)
Definition status_block : M unit :=
  when ((method req =? "GET") && (pathname req =? "/"))
    (match search_instanceId req with
     | None | Some "" =>
         return_ (badRequest "Missing instanceId parameter")
     | Some instanceId =>
         try_catch
           (target <- call (WorkflowGet (JStr instanceId))
                        (workflow_get env (JStr instanceId)) ;;
            st <- call (InstanceStatusQuery target) (instance_status env target) ;;
            return_ (success (StatusReport st)))
           (λ _,
              emit (ConsoleError "Error getting workflow status:") ;;;
              return_ (error "Error getting workflow status"))
     end).

(** The handler, block after block as in the source: the '/tags' block
    and the tagging approval block stand twice. *)
Definition fetch_body : M unit :=
  when (method req =? "OPTIONS") (return_ corsPreflight) ;;;
  tags_block ;;;
  approval_block ROUTES.TAG_APPROVAL "approval-for-ai-tagging" ;;;
  create_block ;;;
  tags_block ;;;
  approval_block ROUTES.TAG_APPROVAL "approval-for-ai-tagging" ;;;
  alttext_block ;;;
  approval_block ROUTES.ALTTEXT_APPROVAL "approval-for-ai-alttext" ;;;
  status_block ;;;
  when (startsWith (pathname req) "/favicon") (return_ notFound) ;;;
  return_ (badRequest "Invalid Request").

(** The same handler with the second copy of the '/tags' block and of
    the tagging approval block left out: one block per route, as the
    specification describes the boundary. *)
Definition fetch_body_single : M unit :=
  when (method req =? "OPTIONS") (return_ corsPreflight) ;;;
  tags_block ;;;
  approval_block ROUTES.TAG_APPROVAL "approval-for-ai-tagging" ;;;
  create_block ;;;
  alttext_block ;;;
  approval_block ROUTES.ALTTEXT_APPROVAL "approval-for-ai-alttext" ;;;
  status_block ;;;
  when (startsWith (pathname req) "/favicon") (return_ notFound) ;;;
  return_ (badRequest "Invalid Request").
End Handler.

(** A call of the handler: its external effects and its response. *)
Definition fetch (req : Request) (env : Env) : outcome unit event unit Response unit :=
  fetch_body env req tt.

Definition fetch_single (req : Request) (env : Env)
  : outcome unit event unit Response unit :=
  fetch_body_single env req tt.

(** The decision table of the handler: the block that serves a request is
    the first one whose test holds. *)
Definition dispatch (req : Request) (env : Env) : outcome unit event unit Response unit :=
  if method req =? "OPTIONS" then Outcome [] tt (Return corsPreflight)
  else if pathname req =? ROUTES.TAGS then tags_block env req tt
  else if pathname req =? ROUTES.TAG_APPROVAL then
    approval_block env req ROUTES.TAG_APPROVAL "approval-for-ai-tagging" tt
  else if (method req =? "POST") && (pathname req =? "/") then create_block env req tt
  else if pathname req =? ROUTES.ALTTEXT then alttext_block env req tt
  else if pathname req =? ROUTES.ALTTEXT_APPROVAL then
    approval_block env req ROUTES.ALTTEXT_APPROVAL "approval-for-ai-alttext" tt
  else if (method req =? "GET") && (pathname req =? "/") then status_block env req tt
  else if startsWith (pathname req) "/favicon" then Outcome [] tt (Return notFound)
  else Outcome [] tt (Return (badRequest "Invalid Request")).

(** The paths the handler has a block for. *)
Definition recognized (path : string) : bool :=
  (path =? "/") || (path =? ROUTES.TAGS) || (path =? ROUTES.TAG_APPROVAL)
  || (path =? ROUTES.ALTTEXT) || (path =? ROUTES.ALTTEXT_APPROVAL).

(** Sample requests and collaborators. *)
Module Sample.
Definition request (m path : string) (instanceId : option string) : Request :=
  {| method := m; pathname := path; search_instanceId := instanceId;
     content_type := None; json := BodyReject; formData := None |}.

(** A database that holds tags and alt text for 'i1'; no workflow. *)
Definition env : Env :=
  {| getImageTags := λ i, if i =? "i1" then Some (Some "cat, sofa") else Some None;
     getImageAltText := λ i, if i =? "i1" then Some (Some "a cat on a sofa") else Some None;
     workflow_get := λ _, None;
     workflow_create := λ _, None;
     sendEvent := λ _ _ _, false;
     instance_status := λ _, None;
     bucket_put := λ _ _, true;
     nanoid := "V1StGXR8_Z5jdHi6B-myT" |}.
End Sample.

(** The response a call ends with, when it ends with a [return]. *)
Definition response {A} (o : outcome unit event unit Response A) : option Response :=
  match result o with
  | Return r => Some r
  | _ => None
  end.

End Worker.

(** ** Further observations on the poller *)
Module PollerExtra.
Import Poller.

(** The interval [startPolling id f] registers. *)
Definition poll_of (id f : string) : interval :=
  {| i_instanceId := id; i_fileName := f; i_delay := 3000 |}.

(** A network whose status endpoint reports a run in progress. *)
Definition net_running (url : string) : fetch_result :=
  Response true 200 (Sample.body (JStr "running") JUndefined JUndefined JUndefined).

(** Two polls in progress. *)
Definition polling_two : state := final (startPolling "i2" "dog.png" Sample.polling).
End PollerExtra.

(** ** Further observations on the workflow *)
Module WorkflowExtra.
Import Workflow.

(** A gate that ends with approval: an event arrived whose payload has a
    truthy [approved]. *)
Definition approved_gate (g : gate) : bool :=
  match g with
  | SignalArrives p => truthy (approved p)
  | _ => false
  end.

(** What one gated stage does, case by case: [wait] is the event of its
    wait, [gen] and [upd] are the names of its two steps, [write] is its
    query. *)
Definition stage_outcome (e : env) (wait : event) (g : gate) (cfg : ai_config)
    (gen upd : string) (write : string → db_request) (imageKey : string)
    (db : gmap string submission)
  : outcome (gmap string submission) event exn Empty_set unit :=
  match g with
  | WindowElapses | WaitRejects => Outcome [wait] db (Throw Rejected)
  | SignalArrives p =>
      if truthy (approved p) then
        match bucket_get e imageKey with
        | None =>
            Outcome [wait; StepDo gen; BucketGet imageKey] db
              (Throw (Error "Image not found"))
        | Some bytes =>
            let input := {| image := bytes; prompt := PROMPT cfg;
                            max_tokens := MAX_TOKENS cfg |} in
            match ai_run e (MODEL cfg) input with
            | None =>
                Outcome [wait; StepDo gen; BucketGet imageKey; AiRun (MODEL cfg) input]
                  db (Throw Rejected)
            | Some text =>
                if db_ok e (write text) then
                  Outcome [wait; StepDo gen; BucketGet imageKey; AiRun (MODEL cfg) input;
                           StepDo upd; Db (write text)]
                    (db_apply (write text) db) (Normal tt)
                else
                  Outcome [wait; StepDo gen; BucketGet imageKey; AiRun (MODEL cfg) input;
                           StepDo upd; Db (write text)]
                    db (Throw Rejected)
            end
        end
      else Outcome [wait] db (Normal tt)
  end.

(** The input of the inference call of a stage. *)
Definition inference_input (cfg : ai_config) (bytes : list Byte.byte) : ai_input :=
  {| image := bytes; prompt := PROMPT cfg; max_tokens := MAX_TOKENS cfg |}.

Definition writes_tags (ev : event) : bool :=
  match ev with
  | Db (updateImageTags _ _) => true
  | _ => false
  end.

Definition writes_altText (ev : event) : bool :=
  match ev with
  | Db (updateImageAltText _ _) => true
  | _ => false
  end.

(** As [Sample.declining], with both gates approving. *)
Definition approving_both : env :=
  {| tag_gate := SignalArrives (Some (JBool true));
     alttext_gate := SignalArrives (Some (JBool true));
     bucket_get := bucket_get Sample.declining;
     ai_run := ai_run Sample.declining;
     db_ok := db_ok Sample.declining |}.
End WorkflowExtra.

(** ** Further observations on the HTTP boundary *)
Module WorkerExtra.
Import Worker.

(** The effects that change something outside the handler: an event sent
    to a workflow, an object put in the bucket, a workflow created. *)
Definition writes (ev : event) : bool :=
  match ev with
  | SendEvent _ _ _ | BucketPut _ _ | WorkflowCreate _ => true
  | _ => false
  end.

Definition is_console_error (ev : event) : bool :=
  match ev with
  | ConsoleError _ => true
  | _ => false
  end.

(** [!instanceId] on what [searchParams.get] gives. *)
Definition missing (instanceId : option string) : bool :=
  match instanceId with
  | None | Some "" => true
  | Some _ => false
  end.

(** A POST with a JSON body. *)
Definition post_json (path : string) (body : json_body) : Request :=
  {| method := "POST"; pathname := path; search_instanceId := None;
     content_type := Some "application/json"; json := body; formData := None |}.

(** A multipart upload of one file. *)
Definition upload (f : File) : Request :=
  {| method := "POST"; pathname := "/"; search_instanceId := None;
     content_type := Some "multipart/form-data; boundary=x";
     json := BodyReject; formData := Some (FileEntry f) |}.

Definition cat_png : File :=
  {| file_name := "cat.png"; file_bytes := [Byte.x89; Byte.x50; Byte.x4e; Byte.x47] |}.

(** An engine that knows the instance 'i1' and accepts events and
    uploads. *)
Definition engine : Env :=
  {| getImageTags := getImageTags Sample.env;
     getImageAltText := getImageAltText Sample.env;
     workflow_get := λ v, match v with
                          | JStr "i1" => Some {| id := "i1" |}
                          | _ => None
                          end;
     workflow_create := λ _, Some {| id := "i1" |};
     sendEvent := λ _ _ _, true;
     instance_status := λ _, Some {| is_status := "running"; is_error := JUndefined |};
     bucket_put := λ _ _, true;
     nanoid := nanoid Sample.env |}.
End WorkerExtra.

(** * Properties *)

(** ** Sequencing *)

Lemma bind_assoc {St Ev Ex R A B C} (m : exec St Ev Ex R A)
    (k : A → exec St Ev Ex R B) (k' : B → exec St Ev Ex R C) s :
  bind (bind m k) k' s = bind m (λ a, bind (k a) k') s.
Proof.
  unfold bind. destruct (m s) as [t1 s1 [a|r|x]]; [|done..].
  destruct (k a s1) as [t2 s2 [b|r|x]]; [|done..].
  destruct (k' b s2) as [t3 s3 c]. by rewrite app_assoc.
Qed.

Lemma bind_ext {St Ev Ex R A B} (m : exec St Ev Ex R A)
    (k k' : A → exec St Ev Ex R B) s :
  (∀ a s', k a s' = k' a s') → bind m k s = bind m k' s.
Proof.
  intros Hk. unfold bind. destruct (m s) as [t1 s1 [a|r|x]]; [|done..].
  by rewrite Hk.
Qed.

(** A statement that does nothing hands over to the rest. *)
Lemma bind_skip {St Ev Ex R B} (m : exec St Ev Ex R unit)
    (k : unit → exec St Ev Ex R B) s :
  m s = Outcome [] s (Normal tt) → bind m k s = k tt s.
Proof. intros Hm. unfold bind. rewrite Hm. by destruct (k tt s). Qed.

(** A statement that returns ends the function: the rest does not run. *)
Lemma bind_returns {St Ev Ex R A B} (m : exec St Ev Ex R A)
    (k : A → exec St Ev Ex R B) s t s' r :
  m s = Outcome t s' (Return r) → bind m k s = Outcome t s' (Return r).
Proof. intros Hm. unfold bind. by rewrite Hm. Qed.


(** ** The status poller *)
Module PollerFacts.
Import Poller.

Lemma stopPolling_run id s :
    stopPolling id s = Outcome [] (stopped id s) (Normal tt).
Proof.
    unfold stopPolling, stopped, bind, get, clearInterval, modify, ret; simpl.
    destruct (pollingIntervals s !! id); reflexivity.
Qed.

Opaque stopPolling.

Lemma startPolling_run id f s :
    startPolling id f s = Outcome [] (started id f s) (Normal tt).
Proof.
    unfold startPolling, bind, setInterval, get, modify, ret. simpl.
    rewrite stopPolling_run. reflexivity.
Qed.

Lemma handleError_run id f s :
    handleError id f s =
    Outcome [OnStatusUpdate {| fileName := f; status := JStr "error";
                               instanceId := id; aiTags := JUndefined;
                               aiAltText := JUndefined |}]
            (stopped id s) (Normal tt).
Proof.
    unfold handleError, bind, onStatusUpdate, emit. simpl.
    rewrite stopPolling_run. reflexivity.
Qed.

Lemma assign_other key h (table : gmap string timer) :
    key ≠ "__proto__" → assign key h table = <[key := h]> table.
Proof.
    intros Hne. unfold assign. destruct (table !! key); [done|].
    by rewrite (proj2 (String.eqb_neq key "__proto__") Hne).
Qed.

Lemma assign_proto h (table : gmap string timer) :
    table !! "__proto__" = None → assign "__proto__" h table = table.
Proof. unfold assign. by intros ->. Qed.

Lemma stopped_table id s : pollingIntervals (stopped id s) !! id = None.
Proof.
    unfold stopped. destruct (pollingIntervals s !! id) eqn:E; simpl; [|done].
    apply lookup_delete_eq.
Qed.

Lemma stopped_absent id s : pollingIntervals s !! id = None → stopped id s = s.
Proof. unfold stopped. by intros ->. Qed.

Lemma stopped_idem id s : stopped id (stopped id s) = stopped id s.
Proof. apply stopped_absent, stopped_table. Qed.

Lemma stopped_next id s : next_timer (stopped id s) = next_timer s.
Proof. unfold stopped. by destruct (pollingIntervals s !! id). Qed.

Lemma wf_init : wf init.
Proof. split; simpl; intros *; by rewrite lookup_empty. Qed.

Lemma wf_stopped id s : wf s → wf (stopped id s).
Proof.
    intros [H1 H2 H3 Hi H4 H5 H6]. unfold stopped.
    destruct (pollingIntervals s !! id) as [h0|] eqn:E; [|by split].
    split; simpl.
    - intros h cb [Hne Hcb]%lookup_delete_Some Hp.
      rewrite lookup_delete_Some. split; [|by apply H1].
      intros Heq. apply H1 in Hcb; [|done]. rewrite <- Heq in Hcb. congruence.
    - rewrite lookup_delete_None. by right.
    - intros id' h cb [_ Hid]%lookup_delete_Some [_ Hcb]%lookup_delete_Some. eauto.
    - intros id1 id2 h [_ Hid1]%lookup_delete_Some [_ Hid2]%lookup_delete_Some. eauto.
    - intros h cb [_ Hcb]%lookup_delete_Some. eauto.
    - intros h cb [_ Hcb]%lookup_delete_Some. eauto.
    - intros id' h [_ Hid]%lookup_delete_Some. eauto.
Qed.

(** Under the invariant, nothing queries [id] once [stopPolling id] ran,
    for an identifier the table can record. *)
Lemma stopped_active id s :
    wf s → id ≠ "__proto__" → active id (stopped id s) = ∅.
Proof.
    intros Hwf Hp. apply map_empty. intros h.
    apply map_lookup_filter_None. right. intros cb Hcb Hid. simpl in Hid.
    apply (wf_recorded _ (wf_stopped id s Hwf)) in Hcb; [|by rewrite Hid].
    rewrite Hid, stopped_table in Hcb. done.
Qed.

Lemma stopped_polling_stopped id s :
    wf s → id ≠ "__proto__" → polling_stopped id (stopped id s).
Proof. split; [apply stopped_table | by apply stopped_active]. Qed.

Lemma wf_started id f s : wf s → wf (started id f s).
Proof.
    intros Hwf. pose proof (wf_stopped id s Hwf) as [H1 H2 H3 Hi H4 H5 H6].
    pose proof (stopped_table id s) as Hid.
    unfold started. set (s' := stopped id s) in *.
    destruct (decide (id = "__proto__")) as [->|Hp].
    - (* the handle is recorded nowhere *)
      rewrite assign_proto by done.
      split; simpl.
      + intros h cb [[<- <-]|[Hne Hcb]]%lookup_insert_Some; simpl; [done|]. by apply H1.
      + done.
      + intros id' h cb Hh [[<- <-]|[Hne Hcb]]%lookup_insert_Some; [|by eauto].
        apply H6 in Hh. lia.
      + done.
      + intros h cb [[<- <-]|[Hne Hcb]]%lookup_insert_Some; [done|by eauto].
      + intros h cb [[<- <-]|[Hne Hcb]]%lookup_insert_Some; [lia|].
        apply H5 in Hcb. lia.
      + intros id' h Hh. apply H6 in Hh. lia.
    - rewrite assign_other by done.
      split; simpl.
      + intros h cb [[<- <-]|[Hne Hcb]]%lookup_insert_Some Hcbp; simpl.
        * apply lookup_insert_eq.
        * rewrite lookup_insert_ne; [by apply H1|].
          intros Heq. apply H1 in Hcb; [|done]. rewrite <- Heq in Hcb. congruence.
      + by rewrite lookup_insert_ne.
      + intros id' h cb [[<- <-]|[Hne Hh]]%lookup_insert_Some.
        * rewrite lookup_insert_eq. by intros [= <-].
        * rewrite lookup_insert_ne; [by eauto|]. apply H6 in Hh. lia.
      + intros id1 id2 h [[<- <-]|[Hne1 Hh1]]%lookup_insert_Some
          [[<- Heq]|[Hne2 Hh2]]%lookup_insert_Some; try done.
        * apply H6 in Hh2. lia.
        * apply H6 in Hh1. lia.
        * by eauto.
      + intros h cb [[<- <-]|[Hne Hcb]]%lookup_insert_Some; [done|by eauto].
      + intros h cb [[<- <-]|[Hne Hcb]]%lookup_insert_Some; [lia|].
        apply H5 in Hcb. lia.
      + intros id' h [[<- <-]|[Hne Hh]]%lookup_insert_Some; [lia|].
        apply H6 in Hh. lia.
Qed.

(** After [startPolling id f] exactly the new interval queries [id]. *)
Lemma started_active id f s :
    wf s → id ≠ "__proto__" →
    active id (started id f s) =
    {[ next_timer s := {| i_instanceId := id; i_fileName := f; i_delay := 3000 |} ]}.
Proof.
    intros Hwf Hp. pose proof (wf_recorded _ (wf_started id f s Hwf)) as H1.
    apply map_eq. intros h. unfold active.
    destruct (decide (h = next_timer s)) as [->|Hne].
    - rewrite lookup_singleton_eq. apply map_lookup_filter_Some. split; [|done].
      unfold started; simpl. rewrite stopped_next. apply lookup_insert_eq.
    - rewrite lookup_singleton_ne by done.
      apply map_lookup_filter_None. right. intros cb Hcb Hid. simpl in Hid.
      apply H1 in Hcb; [|by rewrite Hid]. rewrite Hid in Hcb.
      unfold started in Hcb; simpl in Hcb.
      rewrite assign_other, lookup_insert_eq, stopped_next in Hcb by done. congruence.
Qed.

(** [clearInterval] over a list of handles removes exactly those. *)
Lemma for_each_clearInterval hs s :
  for_each hs clearInterval s =
  Outcome [] {| pollingIntervals := pollingIntervals s;
                timers := foldl (λ m h, delete h m) (timers s) hs;
                next_timer := next_timer s |} (Normal tt).
Proof.
  revert s. induction hs as [|h hs IH]; intros s; simpl.
  - by destruct s.
  - unfold bind, clearInterval, modify. simpl. rewrite IH. reflexivity.
Qed.

Lemma foldl_delete_lookup (hs : list timer) (m : gmap timer interval) h :
  foldl (λ m h, delete h m) m hs !! h = if decide (h ∈ hs) then None else m !! h.
Proof.
  revert m. induction hs as [|h' hs IH]; intros m; cbn [foldl].
  - destruct (decide (h ∈ [])) as [Hin|_]; [|done]. by apply elem_of_nil in Hin.
  - rewrite IH. destruct (decide (h = h')) as [->|Hne].
    + rewrite lookup_delete_eq.
      destruct (decide (h' ∈ h' :: hs)) as [_|Hn]; [by case_decide|].
      exfalso. apply Hn. apply elem_of_cons. by left.
    + rewrite lookup_delete_ne by done.
      destruct (decide (h ∈ hs)) as [Hin|Hin], (decide (h ∈ h' :: hs)) as [Hin'|Hin'];
        [done | | | done].
      * exfalso. apply Hin'. apply elem_of_cons. by right.
      * apply elem_of_cons in Hin' as [?|?]; done.
Qed.

Lemma cleanup_run s :
  cleanup s =
  Outcome [] {| pollingIntervals := pollingIntervals s;
                timers := foldl (λ m h, delete h m) (timers s)
                            (map_to_list (pollingIntervals s)).*2;
                next_timer := next_timer s |} (Normal tt).
Proof.
  unfold cleanup, bind, get. simpl. rewrite for_each_clearInterval. reflexivity.
Qed.

Lemma wf_cleaned s : wf s → wf (final (cleanup s)).
Proof.
  intros [H1 H2 H3 Hi H4 H5 H6]. rewrite cleanup_run. simpl.
  assert (Hsub : ∀ h cb,
            foldl (λ m h, delete h m) (timers s)
              (map_to_list (pollingIntervals s)).*2 !! h = Some cb →
            timers s !! h = Some cb).
  { intros h cb. rewrite foldl_delete_lookup. by case_decide. }
  split; simpl; eauto.
Qed.

Section Tick.
Variable API_BASE_URL : string.
Variable net : string → fetch_result.

Lemma fetchWorkflowRes_run id f s :
  let o := fetchWorkflowRes API_BASE_URL net id f s in
  final o = stopped id s ∧ result o = Normal tt ∧
  fetches (trace o) =
    alttext_url API_BASE_URL id ::
    (if parsed (net (alttext_url API_BASE_URL id))
     then [tags_url API_BASE_URL id] else []) ∧
  callbacks (trace o) =
    [match accepted (net (alttext_url API_BASE_URL id)),
           accepted (net (tags_url API_BASE_URL id)) with
     | Some pa, Some pt => complete_image id f (p_tags pt) (p_altText pa)
     | _, _ => error_image id f
     end].
Proof.
  unfold fetchWorkflowRes, alttext_url, tags_url.
  unfold try_catch, bind, fetch, json, field, when, onStatusUpdate, emit, throw, ret.
  destruct (net (API_BASE_URL ++ "/alttext?instanceId=" ++ id))
    as [|[] ca [| |pa]]; simpl;
    rewrite ?handleError_run; simpl; try done;
    destruct (net (API_BASE_URL ++ "/tags?instanceId=" ++ id))
      as [|[] ct [| |pt]]; simpl;
      rewrite ?handleError_run, ?stopPolling_run; simpl; done.
Qed.

(** The effects of the follow-up, in the order they happen. *)
Lemma fetchWorkflowRes_trace id f s :
  trace (fetchWorkflowRes API_BASE_URL net id f s) =
  follow_up_trace API_BASE_URL id f
    (net (alttext_url API_BASE_URL id)) (net (tags_url API_BASE_URL id)).
Proof.
  unfold fetchWorkflowRes, follow_up_trace, refused, accepted, error_image,
    verbatim_image, complete_image, alttext_url, tags_url.
  unfold try_catch, bind, fetch, json, field, when, onStatusUpdate, emit, throw, ret.
  destruct (net (API_BASE_URL ++ "/alttext?instanceId=" ++ id))
    as [|[] ca [| |pa]]; simpl;
    rewrite ?handleError_run; simpl; try done;
    destruct (net (API_BASE_URL ++ "/tags?instanceId=" ++ id))
      as [|[] ct [| |pt]]; simpl;
      rewrite ?handleError_run, ?stopPolling_run; simpl; done.
Qed.

Opaque fetchWorkflowRes.

(** One tick, case by case on the answer to the status query. *)
Lemma pollStatus_run id f s :
  let o := pollStatus API_BASE_URL net id f s in
  let follow := fetchWorkflowRes API_BASE_URL net id f s in
  result o = Normal tt ∧
  match net (status_url API_BASE_URL id) with
  | Response true _ (JsonValue p) =>
      if strict_eq_str (p_status p) "complete" then
        final o = stopped id s ∧
        fetches (trace o) = status_url API_BASE_URL id :: fetches (trace follow) ∧
        callbacks (trace o) =
          verbatim_image id f (p_status p) :: callbacks (trace follow)
      else if truthy (p_error p) then
        final o = stopped id s ∧
        fetches (trace o) = [status_url API_BASE_URL id] ∧
        callbacks (trace o) = [verbatim_image id f (p_status p); error_image id f]
      else
        final o = s ∧
        fetches (trace o) = [status_url API_BASE_URL id] ∧
        callbacks (trace o) = [verbatim_image id f (p_status p)]
  | _ =>
      final o = stopped id s ∧
      fetches (trace o) = [status_url API_BASE_URL id] ∧
      callbacks (trace o) = [error_image id f]
  end.
Proof.
  pose proof (fetchWorkflowRes_run id f s) as (Hfin & Hres & _).
  unfold pollStatus, status_url.
  unfold try_catch, bind, fetch, json, field, when, onStatusUpdate, emit, throw, ret.
  destruct (net (API_BASE_URL ++ "/?instanceId=" ++ id)) as [|[] c [| |p]]; simpl;
    rewrite ?handleError_run; simpl; try done.
  destruct (strict_eq_str (p_status p) "complete"); simpl.
  - destruct (fetchWorkflowRes API_BASE_URL net id f s) as [t s' r].
    simpl in Hfin, Hres. subst s' r. simpl.
    rewrite stopPolling_run. simpl.
    rewrite app_nil_r, stopped_idem. done.
  - destruct (truthy (p_error p)); simpl; rewrite ?handleError_run; simpl; done.
Qed.

(** The effects of a tick that finds the run complete, in order: the
    status query, the report of the status, the follow-up. *)
Lemma pollStatus_complete_trace id f s code p :
  net (status_url API_BASE_URL id) = Response true code (JsonValue p) →
  strict_eq_str (p_status p) "complete" = true →
  trace (pollStatus API_BASE_URL net id f s) =
  Fetch (status_url API_BASE_URL id) ::
  OnStatusUpdate (verbatim_image id f (p_status p)) ::
  trace (fetchWorkflowRes API_BASE_URL net id f s).
Proof.
  pose proof (fetchWorkflowRes_run id f s) as (Hfin & Hres & _).
  unfold status_url. intros Hnet Hst.
  unfold pollStatus, try_catch, bind, fetch, json, field, when, onStatusUpdate, emit,
    throw, ret.
  rewrite Hnet. simpl. rewrite Hst.
  destruct (fetchWorkflowRes API_BASE_URL net id f s) as [t s' r].
  simpl in Hfin, Hres. subst s' r. simpl.
  rewrite stopPolling_run. simpl. by rewrite app_nil_r.
Qed.

Lemma pollStatus_final id f s :
  final (pollStatus API_BASE_URL net id f s) = s ∨
  final (pollStatus API_BASE_URL net id f s) = stopped id s.
Proof.
  pose proof (pollStatus_run id f s) as [_ H]. simpl in H.
  destruct (net (status_url API_BASE_URL id)) as [|[] c [| |p]]; try (right; apply H).
  destruct (strict_eq_str (p_status p) "complete"); [right; apply H|].
  destruct (truthy (p_error p)); [right|left]; apply H.
Qed.
End Tick.

Lemma reachable_wf API_BASE_URL s : reachable API_BASE_URL s → wf s.
Proof.
  induction 1 as [|s id f _ IH|s net h cb _ IH _|s id _ IH|s _ IH].
  - apply wf_init.
  - rewrite startPolling_run. simpl. by apply wf_started.
  - destruct (pollStatus_final API_BASE_URL net (i_instanceId cb) (i_fileName cb) s)
      as [-> | ->]; [done | by apply wf_stopped].
  - rewrite stopPolling_run. simpl. by apply wf_stopped.
  - by apply wf_cleaned.
Qed.

(** Under the invariant at most one interval queries an identifier the
    table can record. *)
Lemma wf_active id s :
  wf s → id ≠ "__proto__" →
  active id s = ∅ ∨ ∃ h cb, active id s = {[ h := cb ]}.
Proof.
  intros Hwf Hp.
  assert (Hall : ∀ h' cb', active id s !! h' = Some cb' →
                           pollingIntervals s !! id = Some h' ∧ timers s !! h' = Some cb').
  { intros h' cb' [Hcb Hid]%map_lookup_filter_Some. simpl in Hid.
    split; [|done]. rewrite <- Hid. apply (wf_recorded _ Hwf); [done|by rewrite Hid]. }
  destruct (pollingIntervals s !! id) as [h|] eqn:Ht.
  - destruct (active id s !! h) as [cb|] eqn:E.
    + right. exists h, cb. apply map_eq. intros h'.
      destruct (decide (h' = h)) as [->|Hne].
      * by rewrite lookup_singleton_eq.
      * rewrite lookup_singleton_ne by done.
        destruct (active id s !! h') as [cb'|] eqn:E'; [|done].
        apply Hall in E' as [E' _]. congruence.
    + left. apply map_empty. intros h'.
      destruct (active id s !! h') as [cb'|] eqn:E'; [|done].
      pose proof (Hall _ _ E') as [E'' _]. congruence.
  - left. apply map_empty. intros h'.
    destruct (active id s !! h') as [cb'|] eqn:E'; [|done].
    apply Hall in E' as [E' _]. congruence.
Qed.

(** The identifier '__proto__' is the one the table cannot record: the
    handles of its polls are kept nowhere, so that neither a second
    [startPolling], nor [stopPolling], nor the teardown cancels them. *)
Example proto_poll_is_not_recorded :
  let s := final ((startPolling "__proto__" "cat.png" ;;;
                   startPolling "__proto__" "cat.png") init) in
  pollingIntervals s = ∅ ∧
  size (active "__proto__" s) = 2 ∧
  size (active "__proto__" (final (stopPolling "__proto__" s))) = 2 ∧
  size (timers (final (cleanup s))) = 2.
Proof. repeat split; vm_compute; reflexivity. Qed.

(** ** The claims about the poller *)

(** C7. [stopPolling] is idempotent: it never throws; with no poll active
    for the identifier it leaves the store as it is and performs no
    effect; and running it twice is running it once. *)
Theorem stopPolling_idempotent id s :
  result (stopPolling id s) = Normal tt ∧
  (pollingIntervals s !! id = None → stopPolling id s = Outcome [] s (Normal tt)) ∧
  (stopPolling id ;;; stopPolling id) s = stopPolling id s.
Proof.
  split; [by rewrite stopPolling_run|]. split.
  - intros Hnone. by rewrite stopPolling_run, stopped_absent.
  - unfold bind. repeat (rewrite stopPolling_run; simpl). by rewrite stopped_idem.
Qed.

Lemma stopPolling_idempotent_witness :
  pollingIntervals init !! "i1" = None ∧
  stopPolling "i1" init = Outcome [] init (Normal tt).
Proof.
  split; [reflexivity|].
  apply (proj1 (proj2 (stopPolling_idempotent "i1" init))). reflexivity.
Defined.

(** C5. At most one recurring query per identifier. For an identifier
    other than '__proto__': in every store the hook can reach at most one
    interval queries it; [startPolling] cancels the interval the table
    records for it; and after two calls of [startPolling] in a row for it
    exactly one interval queries it, the one the second call registered. *)
Theorem at_most_one_active_poll API_BASE_URL s id f1 f2 :
  reachable API_BASE_URL s →
  id ≠ "__proto__" →
  (size (active id s) ≤ 1)%nat ∧
  (∀ h, pollingIntervals s !! id = Some h →
        timers (final (startPolling id f1 s)) !! h = None) ∧
  active id (final ((startPolling id f1 ;;; startPolling id f2) s)) =
    {[ Pos.succ (next_timer s) :=
         {| i_instanceId := id; i_fileName := f2; i_delay := 3000 |} ]} ∧
  size (active id (final ((startPolling id f1 ;;; startPolling id f2) s))) = 1.
Proof.
  intros Hwf%reachable_wf Hp.
  assert (Hone : active id (final ((startPolling id f1 ;;; startPolling id f2) s)) =
                 {[ Pos.succ (next_timer s) :=
                      {| i_instanceId := id; i_fileName := f2; i_delay := 3000 |} ]}).
  { unfold bind. repeat (rewrite startPolling_run; simpl).
    rewrite started_active by (done || by apply wf_started).
    unfold started. simpl. by rewrite stopped_next. }
  split; [|split; [|split; [done|]]].
  - destruct (wf_active id s Hwf Hp) as [->|(h & cb & ->)].
    + rewrite map_size_empty. lia.
    + rewrite map_size_singleton. lia.
  - intros h Hh. rewrite startPolling_run. unfold started, stopped. rewrite Hh. simpl.
    pose proof (wf_table_lt _ Hwf _ _ Hh).
    rewrite lookup_insert_ne by lia. apply lookup_delete_eq.
  - rewrite Hone. apply map_size_singleton.
Qed.

Lemma at_most_one_active_poll_witness :
  size (active "i1" (final ((startPolling "i1" "cat.png" ;;;
                             startPolling "i1" "cat.png") Sample.polling))) = 1.
Proof.
  apply (at_most_one_active_poll Sample.base Sample.polling "i1" "cat.png" "cat.png").
  - apply reach_start, reach_init.
  - discriminate.
Defined.

(** C8. Teardown: in every store the hook can reach, the cleanup of the
    effect does not throw; after it the interval of every entry of the
    table is cancelled and the runtime holds no interval for any
    identifier other than '__proto__', however many identifiers were
    polled; when no interval queried '__proto__' it holds none at all. *)
Theorem cleanup_cancels_every_poll API_BASE_URL s :
  reachable API_BASE_URL s →
  result (cleanup s) = Normal tt ∧
  (∀ id h, pollingIntervals (final (cleanup s)) !! id = Some h →
           timers (final (cleanup s)) !! h = None) ∧
  (∀ id, id ≠ "__proto__" → active id (final (cleanup s)) = ∅) ∧
  (active "__proto__" s = ∅ → timers (final (cleanup s)) = ∅).
Proof.
  intros Hwf%reachable_wf. rewrite cleanup_run. simpl.
  assert (Hin : ∀ id h, pollingIntervals s !! id = Some h →
                        h ∈ (map_to_list (pollingIntervals s)).*2).
  { intros id h Hh. apply list_elem_of_fmap. exists (id, h).
    split; [done|]. by apply elem_of_map_to_list. }
  assert (Hleft : ∀ h cb,
            foldl (λ m h, delete h m) (timers s)
              (map_to_list (pollingIntervals s)).*2 !! h = Some cb →
            timers s !! h = Some cb ∧ i_instanceId cb = "__proto__").
  { intros h cb. rewrite foldl_delete_lookup. case_decide as Hh; [done|].
    intros Hcb. split; [done|].
    destruct (decide (i_instanceId cb = "__proto__")) as [|Hp]; [done|].
    exfalso. apply Hh. eapply Hin. by apply (wf_recorded _ Hwf). }
  split; [done|]. split; [|split].
  - intros id h Hh. rewrite foldl_delete_lookup.
    rewrite decide_True; [done | by eapply Hin].
  - intros id Hp. apply map_empty. intros h.
    apply map_lookup_filter_None. right. simpl. intros cb Hcb Hid.
    apply Hleft in Hcb as [_ Hcb]. congruence.
  - intros Hnone. apply map_empty. intros h.
    destruct (foldl _ _ _ !! h) as [cb|] eqn:E; [|done].
    apply Hleft in E as [Hcb Hid].
    assert (active "__proto__" s !! h = Some cb) as Hact
      by by apply map_lookup_filter_Some.
    by rewrite Hnone, lookup_empty in Hact.
Qed.

Lemma cleanup_cancels_every_poll_witness :
  timers (final (cleanup (final (startPolling "i2" "dog.png" Sample.polling)))) = ∅.
Proof.
  apply (cleanup_cancels_every_poll Sample.base).
  - apply reach_start, reach_start, reach_init.
  - vm_compute. reflexivity.
Defined.

(** C4. A failed status query ends the poll. For an identifier other
    than '__proto__': when the status query of a tick fails, by a
    transport error or by a response that is not [ok], the tick issues no
    further query, hands exactly one image to the callback, the one with
    status 'error', and ends by [stopPolling]; polling for the identifier
    has then stopped, so that no later tick queries it again. *)
Theorem failed_status_query_stops_polling API_BASE_URL net id f s :
  reachable API_BASE_URL s →
  id ≠ "__proto__" →
  (net (status_url API_BASE_URL id) = NetworkError ∨
   ∃ code body, net (status_url API_BASE_URL id) = Response false code body) →
  let o := pollStatus API_BASE_URL net id f s in
  result o = Normal tt ∧
  fetches (trace o) = [status_url API_BASE_URL id] ∧
  callbacks (trace o) = [error_image id f] ∧
  final o = final (stopPolling id s) ∧
  polling_stopped id (final o).
Proof.
  intros Hwf%reachable_wf Hp Hfail o.
  pose proof (pollStatus_run API_BASE_URL net id f s) as [Hres H]. simpl in H.
  assert (final o = stopped id s ∧
          fetches (trace o) = [status_url API_BASE_URL id] ∧
          callbacks (trace o) = [error_image id f]) as (Hfin & Hq & Hc).
  { destruct Hfail as [E|(code & body & E)]; rewrite E in H; exact H. }
  split_and!; try done.
  - by rewrite Hfin, stopPolling_run.
  - rewrite Hfin. by apply stopped_polling_stopped.
Qed.

Lemma failed_status_query_stops_polling_witness :
  callbacks (trace (pollStatus Sample.base Sample.net_down "i1" "cat.png" Sample.polling))
  = [error_image "i1" "cat.png"].
Proof.
  apply (failed_status_query_stops_polling Sample.base Sample.net_down "i1" "cat.png"
           Sample.polling).
  - apply reach_start, reach_init.
  - discriminate.
  - right. exists 500%Z, JsonReject. reflexivity.
Defined.

(** C1, as the hook has it. When the status query of a tick succeeds with
    status 'complete', the tick does, in this order: the status query;
    the report of the status, as for every status, in an image whose
    derived fields are both undefined; the alt-text query; once that
    response is read, the tags query; and a last report. When both
    follow-up responses are accepted the last report is one more
    'complete' image that carries the tags and the alt text of the two
    payloads together, otherwise it is one 'error' image, and the tags
    query is left out when the alt-text response is refused. The tick
    ends by [stopPolling]; for an identifier other than '__proto__'
    polling has then stopped. *)
Theorem complete_status_fetches_results API_BASE_URL net id f s code p :
  reachable API_BASE_URL s →
  net (status_url API_BASE_URL id) = Response true code (JsonValue p) →
  p_status p = JStr "complete" →
  let o := pollStatus API_BASE_URL net id f s in
  result o = Normal tt ∧
  trace o =
    Fetch (status_url API_BASE_URL id) ::
    OnStatusUpdate (verbatim_image id f (JStr "complete")) ::
    follow_up_trace API_BASE_URL id f
      (net (alttext_url API_BASE_URL id)) (net (tags_url API_BASE_URL id)) ∧
  fetches (trace o) =
    status_url API_BASE_URL id :: alttext_url API_BASE_URL id ::
    (if parsed (net (alttext_url API_BASE_URL id))
     then [tags_url API_BASE_URL id] else []) ∧
  callbacks (trace o) =
    [verbatim_image id f (JStr "complete");
     match accepted (net (alttext_url API_BASE_URL id)),
           accepted (net (tags_url API_BASE_URL id)) with
     | Some pa, Some pt => complete_image id f (p_tags pt) (p_altText pa)
     | _, _ => error_image id f
     end] ∧
  final o = final (stopPolling id s) ∧
  (id ≠ "__proto__" → polling_stopped id (final o)).
Proof.
  intros Hwf%reachable_wf Hnet Hst o. subst o.
  pose proof (pollStatus_run API_BASE_URL net id f s) as [Hres H]. simpl in H.
  pose proof (fetchWorkflowRes_run API_BASE_URL net id f s) as (_ & _ & Hq' & Hc').
  pose proof (pollStatus_complete_trace API_BASE_URL net id f s code p Hnet) as Ht.
  simpl in Hq', Hc'.
  rewrite Hnet, Hst in H. rewrite Hst in Ht. simpl in H. destruct H as (Hfin & Hq & Hc).
  split_and!; [done | | by rewrite Hq, Hq' | by rewrite Hc, Hc' | |].
  - rewrite Ht by done. by rewrite fetchWorkflowRes_trace.
  - by rewrite Hfin, stopPolling_run.
  - intros Hp. rewrite Hfin. by apply stopped_polling_stopped.
Qed.

Lemma complete_status_fetches_results_witness :
  trace (pollStatus Sample.base Sample.net_complete "i1" "cat.png" Sample.polling)
  = [Fetch (status_url Sample.base "i1");
     OnStatusUpdate (verbatim_image "i1" "cat.png" (JStr "complete"));
     Fetch (alttext_url Sample.base "i1");
     ConsoleLog "Tags response:";
     Fetch (tags_url Sample.base "i1");
     OnStatusUpdate
       (complete_image "i1" "cat.png" (JStr "cat, sofa") (JStr "a cat on a sofa"))].
Proof.
  apply (proj1 (proj2 (complete_status_fetches_results Sample.base Sample.net_complete
                         "i1" "cat.png" Sample.polling 200
                         {| p_status := JStr "complete"; p_error := JUndefined;
                            p_altText := JUndefined; p_tags := JUndefined |}
                         (reach_start _ _ _ _ (reach_init _)) eq_refl eq_refl))).
Defined.

(** C1 as stated fails: on a completed workflow whose follow-up queries
    both succeed the callback receives two 'complete' images, and the
    first of them has neither tags nor alt text. *)
Lemma complete_reported_without_results :
  Sample.net_complete (status_url Sample.base "i1") =
    Response true 200 (Sample.body (JStr "complete") JUndefined JUndefined JUndefined) ∧
  callbacks (trace (pollStatus Sample.base Sample.net_complete "i1" "cat.png"
                      Sample.polling))
  = [ {| fileName := "cat.png"; status := JStr "complete"; instanceId := "i1";
         aiTags := JUndefined; aiAltText := JUndefined |};
      {| fileName := "cat.png"; status := JStr "complete"; instanceId := "i1";
         aiTags := JStr "cat, sofa"; aiAltText := JStr "a cat on a sofa" |} ].
Proof. split; vm_compute; reflexivity. Qed.

(** C6, as the hook has it. For an identifier other than '__proto__':
    when the status response of a tick carries a payload with a truthy
    [error] and a status other than 'complete', the tick ends with the
    'error' image and by [stopPolling], and polling for the identifier
    has then stopped, whatever the HTTP status and the [ok] flag of the
    response: a response that is not [ok] is an error before its payload
    is read, one that is [ok] has its status reported first. *)
Theorem payload_error_stops_polling API_BASE_URL net id f s ok code p :
  reachable API_BASE_URL s →
  id ≠ "__proto__" →
  net (status_url API_BASE_URL id) = Response ok code (JsonValue p) →
  truthy (p_error p) = true →
  strict_eq_str (p_status p) "complete" = false →
  let o := pollStatus API_BASE_URL net id f s in
  result o = Normal tt ∧
  fetches (trace o) = [status_url API_BASE_URL id] ∧
  callbacks (trace o) =
    ((if ok then [verbatim_image id f (p_status p)] else []) ++ [error_image id f])%list ∧
  final o = final (stopPolling id s) ∧
  polling_stopped id (final o).
Proof.
  intros Hwf%reachable_wf Hp Hnet Herr Hst o.
  pose proof (pollStatus_run API_BASE_URL net id f s) as [Hres H]. simpl in H.
  rewrite Hnet in H.
  assert (final o = stopped id s ∧
          fetches (trace o) = [status_url API_BASE_URL id] ∧
          callbacks (trace o) =
            ((if ok then [verbatim_image id f (p_status p)] else [])
             ++ [error_image id f])%list)
    as (Hfin & Hq & Hc).
  { destruct ok; [|exact H]. rewrite Hst, Herr in H. exact H. }
  split_and!; try done.
  - by rewrite Hfin, stopPolling_run.
  - rewrite Hfin. by apply stopped_polling_stopped.
Qed.

Lemma payload_error_stops_polling_witness :
  callbacks (trace (pollStatus Sample.base Sample.net_errored "i1" "cat.png"
                      Sample.polling))
  = [verbatim_image "i1" "cat.png" (JStr "errored"); error_image "i1" "cat.png"].
Proof.
  apply (payload_error_stops_polling Sample.base Sample.net_errored "i1" "cat.png"
           Sample.polling true 200
           {| p_status := JStr "errored"; p_error := JStr "step failed";
              p_altText := JUndefined; p_tags := JUndefined |}).
  - apply reach_start, reach_init.
  - discriminate.
  - reflexivity.
  - reflexivity.
  - reflexivity.
Defined.

(** C6 as stated fails: a payload with status 'complete' and an error
    indicator is handled as a completed workflow; with both follow-up
    queries answered, no 'error' image is reported. *)
Lemma payload_error_ignored_when_complete :
  Sample.net_complete_with_error (status_url Sample.base "i1") =
    Response true 200
      (Sample.body (JStr "complete") (JStr "step failed") JUndefined JUndefined) ∧
  truthy (JStr "step failed") = true ∧
  callbacks (trace (pollStatus Sample.base Sample.net_complete_with_error "i1" "cat.png"
                      Sample.polling))
  = [ {| fileName := "cat.png"; status := JStr "complete"; instanceId := "i1";
         aiTags := JUndefined; aiAltText := JUndefined |};
      {| fileName := "cat.png"; status := JStr "complete"; instanceId := "i1";
         aiTags := JStr "cat, sofa"; aiAltText := JStr "a cat on a sofa" |} ].
Proof. repeat split; vm_compute; reflexivity. Qed.
End PollerFacts.

(** ** The approval workflow *)
Module WorkflowFacts.
Import Workflow WorkflowExtra.

Example run_declining :
  run Sample.declining "i1" "k1" ∅ =
  Outcome [StepDo "Insert image name into database"; Db (insertImage "k1" "i1");
           tag_wait; alttext_wait]
          {[ "i1" := {| imageKey := "k1"; tags := None; altText := None |} ]}
          (Normal tt).
Proof. vm_compute. reflexivity. Qed.

Example run_approving_tags :
  run Sample.approving_tags "i1" "k1" ∅ =
  Outcome [StepDo "Insert image name into database"; Db (insertImage "k1" "i1");
           tag_wait;
           StepDo "Generate AI tags"; BucketGet "k1";
           AiRun (MODEL AI_TAGS_CONFIG)
             {| image := Sample.bytes; prompt := PROMPT AI_TAGS_CONFIG;
                max_tokens := 512 |};
           StepDo "Update DB with AI tags";
           Db (updateImageTags "i1" "cat, orange, fur, pet, indoor");
           alttext_wait]
          {[ "i1" := {| imageKey := "k1"; tags := Some "cat, orange, fur, pet, indoor";
                        altText := None |} ]}
          (Normal tt).
Proof. vm_compute. reflexivity. Qed.

Lemma run_stages e i k db :
  run e i k db =
  (step_do "Insert image name into database" (db_query e (insertImage k i)) ;;;
   tagging_stage e i k ;;;
   alttext_stage e i k) db.
Proof.
  unfold run. apply bind_ext. intros _ s.
  unfold tagging_stage. symmetry. apply bind_assoc.
Qed.

Lemma insert_step_run e i k db :
  step_do "Insert image name into database" (db_query e (insertImage k i)) db =
  if db_ok e (insertImage k i)
  then Outcome [StepDo "Insert image name into database"; Db (insertImage k i)]
               (db_apply (insertImage k i) db) (Normal tt)
  else Outcome [StepDo "Insert image name into database"; Db (insertImage k i)]
               db (Throw Rejected).
Proof.
  unfold step_do, db_query, bind, emit, modify, throw.
  destruct (db_ok e (insertImage k i)); reflexivity.
Qed.

Lemma tags_insertImage k i (db : gmap string submission) :
  tags <$> db_apply (insertImage k i) db !! i = Some None.
Proof. simpl. by rewrite lookup_insert_eq. Qed.

Lemma altText_insertImage k i (db : gmap string submission) :
  altText <$> db_apply (insertImage k i) db !! i = Some None.
Proof. simpl. by rewrite lookup_insert_eq. Qed.

Lemma tags_updateImageAltText i t (db : gmap string submission) :
  tags <$> db_apply (updateImageAltText i t) db !! i = tags <$> db !! i.
Proof.
  simpl. destruct (db !! i) as [r|] eqn:E; [|by rewrite E].
  by rewrite lookup_insert_eq.
Qed.

Lemma altText_updateImageTags i t (db : gmap string submission) :
  altText <$> db_apply (updateImageTags i t) db !! i = altText <$> db !! i.
Proof.
  simpl. destruct (db !! i) as [r|] eqn:E; [|by rewrite E].
  by rewrite lookup_insert_eq.
Qed.

Opaque db_apply.

Lemma tagging_stage_closed e i k db :
  tagging_stage e i k db =
  stage_outcome e tag_wait (tag_gate e) AI_TAGS_CONFIG
    "Generate AI tags" "Update DB with AI tags" (updateImageTags i) k db.
Proof.
  unfold tagging_stage, stage_outcome, waitForEvent, step_do, generate, db_query, when,
    bind, emit, modify, throw, ret.
  destruct (tag_gate e) as [p| |]; simpl; [|done..].
  destruct (truthy (approved p)); simpl; [|done].
  destruct (bucket_get e k) as [bytes|]; simpl; [|done].
  destruct (ai_run e _ _) as [t|]; simpl; [|done].
  by destruct (db_ok e (updateImageTags i t)).
Qed.

Lemma alttext_stage_closed e i k db :
  alttext_stage e i k db =
  stage_outcome e alttext_wait (alttext_gate e) AI_ALT_TEXT_CONFIG
    "Generate AI Alt Text" "Update DB with AI Alt text" (updateImageAltText i) k db.
Proof.
  unfold alttext_stage, stage_outcome, waitForEvent, step_do, generate, db_query, when,
    bind, emit, modify, throw, ret.
  destruct (alttext_gate e) as [p| |]; simpl; [|done..].
  destruct (truthy (approved p)); simpl; [|done].
  destruct (bucket_get e k) as [bytes|]; simpl; [|done].
  destruct (ai_run e _ _) as [t|]; simpl; [|done].
  by destruct (db_ok e (updateImageAltText i t)).
Qed.

(** A run in closed form: the insert step, then the two stages. *)
Lemma run_closed e i k db :
  run e i k db =
  if db_ok e (insertImage k i) then
    let o1 := stage_outcome e tag_wait (tag_gate e) AI_TAGS_CONFIG
                "Generate AI tags" "Update DB with AI tags" (updateImageTags i) k
                (db_apply (insertImage k i) db) in
    match result o1 with
    | Normal _ =>
        let o2 := stage_outcome e alttext_wait (alttext_gate e) AI_ALT_TEXT_CONFIG
                    "Generate AI Alt Text" "Update DB with AI Alt text"
                    (updateImageAltText i) k (final o1) in
        Outcome ([StepDo "Insert image name into database"; Db (insertImage k i)]
                 ++ trace o1 ++ trace o2)%list (final o2) (result o2)
    | Return r => match r with end
    | Throw x =>
        Outcome ([StepDo "Insert image name into database"; Db (insertImage k i)]
                 ++ trace o1)%list (final o1) (Throw x)
    end
  else
    Outcome [StepDo "Insert image name into database"; Db (insertImage k i)]
      db (Throw Rejected).
Proof.
  rewrite run_stages. unfold bind. rewrite insert_step_run.
  destruct (db_ok e (insertImage k i)); [|done].
  rewrite tagging_stage_closed.
  destruct (stage_outcome e tag_wait _ _ _ _ _ _ _) as [t1 s1 [[]|[]|x]]; simpl; [|done].
  rewrite alttext_stage_closed.
  by destruct (stage_outcome e alttext_wait _ _ _ _ _ _ _) as [t2 s2 r2].
Qed.

(** Case analysis on everything a run depends on. *)
Ltac leaf_step :=
  match goal with
  | |- context [match ?x with _ => _ end] =>
      lazymatch x with
      | tag_gate _ => destruct x eqn:?
      | alttext_gate _ => destruct x eqn:?
      | truthy _ => destruct x eqn:?
      | bucket_get _ _ => destruct x eqn:?
      | ai_run _ _ _ => destruct x eqn:?
      | db_ok _ _ => destruct x eqn:?
      end
  end.

Ltac run_leaves :=
  rewrite run_closed;
  repeat (cbv beta iota zeta delta [result trace final app stage_outcome];
          try leaf_step).

Ltac elem_cases H :=
  repeat (apply elem_of_cons in H as [H|H]; [simplify_eq|]);
  try (by apply elem_of_nil in H).

(** A wait that rejects, by the expiry of its window or otherwise, ends
    the run there: [run] has no handler around its waits. *)
Lemma run_wait_rejects e i k db :
  tag_gate e = WindowElapses ∨ tag_gate e = WaitRejects →
  db_ok e (insertImage k i) = true →
  run e i k db =
  Outcome [StepDo "Insert image name into database"; Db (insertImage k i); tag_wait]
          (db_apply (insertImage k i) db) (Throw Rejected).
Proof.
  intros Hg Hok. rewrite run_closed, Hok. unfold stage_outcome.
  by destruct Hg as [-> | ->].
Qed.

Ltac unset_field :=
  rewrite ?tags_updateImageAltText, ?altText_updateImageTags;
  first [apply tags_insertImage | apply altText_insertImage].

(** C2, as the workflow has it. A gate whose signal arrives without
    approval skips its stage: the run performs none of the effects of the
    stage (no step, no inference call, no write of the field); after a
    tagging signal without approval the next thing the run does, once the
    submission is inserted, is to enter the alt-text wait, and [tags] is
    unset in the store the run leaves; after an alt-text signal without
    approval the run, having reached that gate, finishes, with [altText]
    unset. A gate whose 5 minute window elapses ends the run at its
    wait: the stage has no effect and its field stays unset, but the run
    fails there; after the tagging wait it enters no alt-text wait. *)
Theorem unapproved_gate_skips_stage e i k db :
  let o := run e i k db in
  (declined (tag_gate e) = true →
     existsb touches_tags (trace o) = false ∧
     (db_ok e (insertImage k i) = true →
        (∃ rest, trace o =
           [StepDo "Insert image name into database"; Db (insertImage k i);
            tag_wait; alttext_wait] ++ rest)%list ∧
        tags <$> final o !! i = Some None)) ∧
  (declined (alttext_gate e) = true →
     existsb touches_altText (trace o) = false ∧
     (db_ok e (insertImage k i) = true → altText <$> final o !! i = Some None) ∧
     (alttext_wait ∈ trace o →
        result o = Normal tt ∧ last (trace o) = Some alttext_wait)) ∧
  (tag_gate e = WindowElapses →
     existsb touches_tags (trace o) = false ∧
     (db_ok e (insertImage k i) = true →
        trace o = [StepDo "Insert image name into database"; Db (insertImage k i);
                   tag_wait] ∧
        result o = Throw Rejected ∧
        tags <$> final o !! i = Some None ∧
        altText <$> final o !! i = Some None)) ∧
  (alttext_gate e = WindowElapses →
     existsb touches_altText (trace o) = false ∧
     (db_ok e (insertImage k i) = true → altText <$> final o !! i = Some None) ∧
     (alttext_wait ∈ trace o →
        result o = Throw Rejected ∧ last (trace o) = Some alttext_wait)).
Proof.
  unfold tag_wait, alttext_wait. cbv zeta. rewrite run_closed.
  repeat (cbv beta iota zeta delta [result trace final app stage_outcome declined negb];
          try leaf_step);
    repeat match goal with
           | |- _ ∧ _ => split
           | |- _ → _ => intro
           end;
    try done;
    lazymatch goal with
    | |- existsb _ _ = _ => vm_compute; reflexivity
    | |- ∃ rest, _ => by eexists
    | |- _ <$> _ = _ => unset_field
    | H : _ ∈ _ |- _ => elem_cases H
    | |- _ => idtac
    end.
Qed.

Lemma unapproved_gate_skips_stage_witness :
  existsb touches_tags (trace (run Sample.declining "i1" "k1" ∅)) = false ∧
  existsb touches_altText (trace (run Sample.declining "i1" "k1" ∅)) = false ∧
  result (run Sample.timing_out "i1" "k1" ∅) = Throw Rejected ∧
  existsb touches_altText (trace (run Sample.alttext_timing_out "i1" "k1" ∅)) = false.
Proof.
  split_and!.
  - apply (proj1 (unapproved_gate_skips_stage Sample.declining "i1" "k1" ∅)).
    reflexivity.
  - apply (proj1 (proj2 (unapproved_gate_skips_stage Sample.declining "i1" "k1" ∅))).
    reflexivity.
  - apply (proj1 (proj2 (proj2 (unapproved_gate_skips_stage Sample.timing_out
                                  "i1" "k1" ∅)))); reflexivity.
  - apply (proj2 (proj2 (proj2 (unapproved_gate_skips_stage Sample.alttext_timing_out
                                  "i1" "k1" ∅)))).
    reflexivity.
Defined.

(** C2 as stated fails: when no tagging signal arrives within the
    5 minutes the run does not proceed to the next stage. It fails at
    the tagging wait and never enters the alt-text wait, although the
    alt-text signal would have approved. *)
Lemma timeout_ends_run :
  tag_gate Sample.timing_out = WindowElapses ∧
  alttext_gate Sample.timing_out = SignalArrives (Some (JBool true)) ∧
  run Sample.timing_out "i1" "k1" ∅ =
  Outcome [StepDo "Insert image name into database"; Db (insertImage "k1" "i1");
           tag_wait]
          {[ "i1" := {| imageKey := "k1"; tags := None; altText := None |} ]}
          (Throw Rejected).
Proof. repeat split; vm_compute; reflexivity. Qed.

Example run_rejecting :
  run Sample.rejecting "i1" "k1" ∅ =
  Outcome [StepDo "Insert image name into database"; Db (insertImage "k1" "i1"); tag_wait]
          {[ "i1" := {| imageKey := "k1"; tags := None; altText := None |} ]}
          (Throw Rejected).
Proof. vm_compute. reflexivity. Qed.
End WorkflowFacts.

(** ** The HTTP boundary *)
Module WorkerFacts.
Import Worker.

Ltac returns := eexists _, _; split; [reflexivity | discriminate].

Section Blocks.
Variable env : Env.
Variable req : Request.

(** Every block either does not apply, and then does nothing, or applies,
    and then ends the handler with a response. *)
Lemma tags_block_skip :
  (pathname req =? ROUTES.TAGS) = false →
  tags_block env req tt = Outcome [] tt (Normal tt).
Proof. intros H. unfold tags_block, when. by rewrite H. Qed.

Lemma tags_block_returns :
  (pathname req =? ROUTES.TAGS) = true →
  tags_block env req tt =
  match search_instanceId req with
  | None | Some "" => Outcome [] tt (Return (badRequest "Missing instanceId parameter"))
  | Some instanceId =>
      match getImageTags env instanceId with
      | Some tags =>
          Outcome [DbGetImageTags instanceId] tt
            (Return (success (TagsResponse instanceId tags)))
      | None =>
          Outcome [DbGetImageTags instanceId; ConsoleError "Error fetching tags:"] tt
            (Return (error "Error fetching tags"))
      end
  end.
Proof.
  intros H. unfold tags_block, when. rewrite H.
  destruct (search_instanceId req) as [[|c s]|]; [done| |done].
  unfold try_catch, bind, call, emit, return_, throw, ret.
  by destruct (getImageTags env (String c s)).
Qed.

Lemma alttext_block_skip :
  (pathname req =? ROUTES.ALTTEXT) = false →
  alttext_block env req tt = Outcome [] tt (Normal tt).
Proof. intros H. unfold alttext_block, when. by rewrite H. Qed.

Lemma alttext_block_returns :
  (pathname req =? ROUTES.ALTTEXT) = true →
  alttext_block env req tt =
  match search_instanceId req with
  | None | Some "" => Outcome [] tt (Return (badRequest "Missing instanceId parameter"))
  | Some instanceId =>
      match getImageAltText env instanceId with
      | Some altText =>
          Outcome [DbGetImageAltText instanceId] tt
            (Return (success (AltTextResponse instanceId altText)))
      | None =>
          Outcome [DbGetImageAltText instanceId; ConsoleError "Error fetching alt text:"] tt
            (Return (error "Error fetching alt text"))
      end
  end.
Proof.
  intros H. unfold alttext_block, when. rewrite H.
  destruct (search_instanceId req) as [[|c s]|]; [done| |done].
  unfold try_catch, bind, call, emit, return_, throw, ret.
  by destruct (getImageAltText env (String c s)).
Qed.

Lemma approval_block_skip route type :
  (pathname req =? route) = false →
  approval_block env req route type tt = Outcome [] tt (Normal tt).
Proof. intros H. unfold approval_block, when. by rewrite H. Qed.

(** The responses of an approval block; 405 is the answer to every method
    but POST, and to no POST. *)
Lemma approval_block_returns route type :
  (pathname req =? route) = true →
  ∃ t r, approval_block env req route type tt = Outcome t tt (Return r) ∧
         (r = methodNotAllowed ↔ (method req =? "POST") = false).
Proof.
  intros H. unfold approval_block, when. rewrite H.
  unfold try_catch, bind, call, emit, return_, throw, ret.
  destruct (method req =? "POST"); simpl; [|by eexists _, _].
  destruct (json req) as [| |instanceId approved]; simpl; [by eexists _, _..|].
  destruct (negb (truthy instanceId) || negb (is_boolean approved)); simpl;
    [by eexists _, _|].
  destruct (workflow_get env instanceId) as [target|]; simpl; [|by eexists _, _].
  destruct (sendEvent env target type approved); simpl; by eexists _, _.
Qed.

Lemma create_block_skip :
  (method req =? "POST") && (pathname req =? "/") = false →
  create_block env req tt = Outcome [] tt (Normal tt).
Proof. intros H. unfold create_block, when. by rewrite H. Qed.

Lemma create_block_returns :
  (method req =? "POST") && (pathname req =? "/") = true →
  ∃ t r, create_block env req tt = Outcome t tt (Return r) ∧ r ≠ methodNotAllowed.
Proof.
  intros H. unfold create_block, when. rewrite H.
  unfold try_catch, bind, call, emit, return_, throw, ret.
  destruct (content_type req) as [contentType|]; simpl; [|returns].
  destruct (_ || _); simpl; [returns|].
  destruct (formData req) as [[| |f]|]; simpl; [returns..| |returns].
  destruct (bucket_put env (nanoid env) f); simpl; [|returns].
  destruct (workflow_create env (nanoid env)) as [target|]; simpl; [|returns].
  destruct (instance_status env target); simpl; returns.
Qed.

Lemma status_block_skip :
  (method req =? "GET") && (pathname req =? "/") = false →
  status_block env req tt = Outcome [] tt (Normal tt).
Proof. intros H. unfold status_block, when. by rewrite H. Qed.

Lemma status_block_returns :
  (method req =? "GET") && (pathname req =? "/") = true →
  ∃ t r, status_block env req tt = Outcome t tt (Return r) ∧ r ≠ methodNotAllowed.
Proof.
  intros H. unfold status_block, when. rewrite H.
  destruct (search_instanceId req) as [[|c s]|]; [returns| |returns].
  unfold try_catch, bind, call, emit, return_, throw, ret.
  destruct (workflow_get env (JStr (String c s))) as [target|]; simpl; [|returns].
  destruct (instance_status env target); simpl; returns.
Qed.

Lemma tags_block_ends :
  (pathname req =? ROUTES.TAGS) = true →
  ∃ t r, tags_block env req tt = Outcome t tt (Return r) ∧ r ≠ methodNotAllowed.
Proof.
  intros H. rewrite (tags_block_returns H).
  destruct (search_instanceId req) as [[|c s]|]; [returns| |returns].
  destruct (getImageTags env (String c s)); returns.
Qed.

Lemma alttext_block_ends :
  (pathname req =? ROUTES.ALTTEXT) = true →
  ∃ t r, alttext_block env req tt = Outcome t tt (Return r) ∧ r ≠ methodNotAllowed.
Proof.
  intros H. rewrite (alttext_block_returns H).
  destruct (search_instanceId req) as [[|c s]|]; [returns| |returns].
  destruct (getImageAltText env (String c s)); returns.
Qed.

Ltac block_returns H :=
  let t := fresh "t" in let r := fresh "r" in let E := fresh "E" in
  destruct H as (t & r & E & _);
  rewrite ?(bind_returns _ _ _ _ _ _ E); symmetry; exact E.

(** The handler follows its decision table. *)
Lemma fetch_dispatch : fetch req env = dispatch req env.
Proof.
  unfold fetch, fetch_body, dispatch.
  destruct (method req =? "OPTIONS") eqn:Ho; [by erewrite bind_returns|].
  rewrite bind_skip by done.
  destruct (pathname req =? ROUTES.TAGS) eqn:Ht;
    [block_returns (tags_block_ends Ht)|].
  rewrite bind_skip by by apply tags_block_skip.
  destruct (pathname req =? ROUTES.TAG_APPROVAL) eqn:Hta;
    [block_returns (approval_block_returns _ "approval-for-ai-tagging" Hta)|].
  rewrite bind_skip by by apply approval_block_skip.
  destruct ((method req =? "POST") && (pathname req =? "/")) eqn:Hc;
    [block_returns (create_block_returns Hc)|].
  rewrite bind_skip by by apply create_block_skip.
  rewrite bind_skip by by apply tags_block_skip.
  rewrite bind_skip by by apply approval_block_skip.
  destruct (pathname req =? ROUTES.ALTTEXT) eqn:Ha;
    [block_returns (alttext_block_ends Ha)|].
  rewrite bind_skip by by apply alttext_block_skip.
  destruct (pathname req =? ROUTES.ALTTEXT_APPROVAL) eqn:Haa;
    [block_returns (approval_block_returns _ "approval-for-ai-alttext" Haa)|].
  rewrite bind_skip by by apply approval_block_skip.
  destruct ((method req =? "GET") && (pathname req =? "/")) eqn:Hs;
    [block_returns (status_block_returns Hs)|].
  rewrite bind_skip by by apply status_block_skip.
  destruct (startsWith (pathname req) "/favicon") eqn:Hf; [by erewrite bind_returns|].
  by rewrite bind_skip.
Qed.

Lemma fetch_single_dispatch : fetch_single req env = dispatch req env.
Proof.
  unfold fetch_single, fetch_body_single, dispatch.
  destruct (method req =? "OPTIONS") eqn:Ho; [by erewrite bind_returns|].
  rewrite bind_skip by done.
  destruct (pathname req =? ROUTES.TAGS) eqn:Ht;
    [block_returns (tags_block_ends Ht)|].
  rewrite bind_skip by by apply tags_block_skip.
  destruct (pathname req =? ROUTES.TAG_APPROVAL) eqn:Hta;
    [block_returns (approval_block_returns _ "approval-for-ai-tagging" Hta)|].
  rewrite bind_skip by by apply approval_block_skip.
  destruct ((method req =? "POST") && (pathname req =? "/")) eqn:Hc;
    [block_returns (create_block_returns Hc)|].
  rewrite bind_skip by by apply create_block_skip.
  destruct (pathname req =? ROUTES.ALTTEXT) eqn:Ha;
    [block_returns (alttext_block_ends Ha)|].
  rewrite bind_skip by by apply alttext_block_skip.
  destruct (pathname req =? ROUTES.ALTTEXT_APPROVAL) eqn:Haa;
    [block_returns (approval_block_returns _ "approval-for-ai-alttext" Haa)|].
  rewrite bind_skip by by apply approval_block_skip.
  destruct ((method req =? "GET") && (pathname req =? "/")) eqn:Hs;
    [block_returns (status_block_returns Hs)|].
  rewrite bind_skip by by apply status_block_skip.
  destruct (startsWith (pathname req) "/favicon") eqn:Hf; [by erewrite bind_returns|].
  by rewrite bind_skip.
Qed.

(** 405 is the answer of the two approval routes, to every method but
    POST (and OPTIONS, answered before any route), and of nothing else. *)
Lemma method_not_allowed_iff :
  response (fetch req env) = Some methodNotAllowed ↔
  ((pathname req =? ROUTES.TAG_APPROVAL) || (pathname req =? ROUTES.ALTTEXT_APPROVAL))
  && negb (method req =? "POST") && negb (method req =? "OPTIONS") = true.
Proof.
  rewrite fetch_dispatch. unfold dispatch, response.
  destruct (method req =? "OPTIONS") eqn:Ho; simpl.
  { rewrite andb_false_r. split; done. }
  rewrite andb_true_r.
  destruct (pathname req =? ROUTES.TAGS) eqn:Ht.
  { destruct (tags_block_ends Ht) as (t & r & -> & Hr). simpl.
    apply String.eqb_eq in Ht. rewrite Ht. simpl. split; [congruence|done]. }
  destruct (pathname req =? ROUTES.TAG_APPROVAL) eqn:Hta.
  { destruct (approval_block_returns _ "approval-for-ai-tagging" Hta)
      as (t & r & -> & Hr). simpl.
    rewrite ?orb_true_r, negb_true_iff, <- Hr. split; [by intros [= ->]|by intros ->]. }
  destruct ((method req =? "POST") && (pathname req =? "/")) eqn:Hc.
  { destruct (create_block_returns Hc) as (t & r & -> & Hr). simpl.
    apply andb_prop in Hc as [-> Hp]. apply String.eqb_eq in Hp. rewrite Hp. simpl.
    split; [congruence|done]. }
  destruct (pathname req =? ROUTES.ALTTEXT) eqn:Ha.
  { destruct (alttext_block_ends Ha) as (t & r & -> & Hr). simpl.
    apply String.eqb_eq in Ha. rewrite Ha. simpl. split; [congruence|done]. }
  destruct (pathname req =? ROUTES.ALTTEXT_APPROVAL) eqn:Haa.
  { destruct (approval_block_returns _ "approval-for-ai-alttext" Haa)
      as (t & r & -> & Hr). simpl.
    rewrite ?orb_true_r, negb_true_iff, <- Hr. split; [by intros [= ->]|by intros ->]. }
  destruct ((method req =? "GET") && (pathname req =? "/")) eqn:Hs.
  { destruct (status_block_returns Hs) as (t & r & -> & Hr). simpl.
    split; [congruence|done]. }
  simpl. destruct (startsWith (pathname req) "/favicon"); simpl; split; done.
Qed.
End Blocks.

(** ** The claims about the boundary *)

(** C9. The second copies of the '/tags' block and of the tagging
    approval block are never reached: the handler and the handler without
    them give, on every request and with every behaviour of the
    collaborators, the same response after the same external effects. *)
Theorem duplicated_blocks_unobservable req env :
  fetch req env = fetch_single req env.
Proof. by rewrite fetch_dispatch, fetch_single_dispatch. Qed.

(** C3, as the handler has it. A request (other than a preflight) whose
    path is none of the handler's routes is answered without any external
    effect: 404 when the path starts with '/favicon', and otherwise 400
    with the error 'Invalid Request', each with an error body. A request
    to '/' with a method other than GET and POST gets that same 400. 405
    is the answer of the two approval routes to a method other than POST
    and OPTIONS, and of nothing else. *)
Theorem unrecognized_path_response req env :
  ((method req =? "OPTIONS") = false →
   recognized (pathname req) = false →
     let r := if startsWith (pathname req) "/favicon"
              then notFound else badRequest "Invalid Request" in
     fetch req env = Outcome [] tt (Return r) ∧
     status_code r = (if startsWith (pathname req) "/favicon" then 404 else 400)%Z ∧
     has_error_body r = true) ∧
  (pathname req = "/" →
     (method req =? "OPTIONS") = false →
     (method req =? "GET") = false → (method req =? "POST") = false →
     fetch req env = Outcome [] tt (Return (badRequest "Invalid Request"))) ∧
  (response (fetch req env) = Some methodNotAllowed ↔
     ((pathname req =? ROUTES.TAG_APPROVAL) || (pathname req =? ROUTES.ALTTEXT_APPROVAL))
     && negb (method req =? "POST") && negb (method req =? "OPTIONS") = true).
Proof.
  split; [|split; [|by apply method_not_allowed_iff]].
  - intros Ho. unfold recognized. rewrite !orb_false_iff.
    intros ((((Hr & Ht) & Hta) & Ha) & Haa).
    simpl. rewrite fetch_dispatch. unfold dispatch.
    rewrite Ho, Ht, Hta, Ha, Haa, Hr, !andb_false_r.
    by destruct (startsWith (pathname req) "/favicon").
  - intros Hp Ho Hg Hpost. rewrite fetch_dispatch. unfold dispatch.
    rewrite Ho, Hg, Hpost, Hp. reflexivity.
Qed.

Lemma unrecognized_path_response_witness :
  fetch (Sample.request "GET" "/favicon.ico" None) Sample.env =
  Outcome [] tt (Return notFound).
Proof.
  apply (proj1 (unrecognized_path_response
                  (Sample.request "GET" "/favicon.ico" None) Sample.env));
    reflexivity.
Defined.

(** C3 as stated fails: a GET of a path the handler has no route for is
    answered 400, not 404. *)
Lemma unknown_path_answers_400 :
  recognized "/nope" = false ∧
  response (fetch (Sample.request "GET" "/nope" None) Sample.env)
  = Some (badRequest "Invalid Request") ∧
  status_code (badRequest "Invalid Request") = 400%Z.
Proof. repeat split; vm_compute; reflexivity. Qed.

(** C10, as the handler has it. The '/tags' and '/alttext' blocks do not
    look at the method: a request to one of them that is not a preflight
    and carries a non-empty instanceId has the lookup performed, whatever
    its method, and is answered with the success payload when the lookup
    gives a result and with the 500 error when it throws. 405 is the
    answer of the two approval routes to a method other than POST and
    OPTIONS, and of nothing else. *)
Theorem tags_and_alttext_ignore_method req env instanceId :
  ((method req =? "OPTIONS") = false →
   search_instanceId req = Some instanceId →
   instanceId ≠ "" →
   pathname req = ROUTES.TAGS →
     fetch req env =
     match getImageTags env instanceId with
     | Some tags =>
         Outcome [DbGetImageTags instanceId] tt
           (Return (success (TagsResponse instanceId tags)))
     | None =>
         Outcome [DbGetImageTags instanceId; ConsoleError "Error fetching tags:"] tt
           (Return (error "Error fetching tags"))
     end) ∧
  ((method req =? "OPTIONS") = false →
   search_instanceId req = Some instanceId →
   instanceId ≠ "" →
   pathname req = ROUTES.ALTTEXT →
     fetch req env =
     match getImageAltText env instanceId with
     | Some altText =>
         Outcome [DbGetImageAltText instanceId] tt
           (Return (success (AltTextResponse instanceId altText)))
     | None =>
         Outcome [DbGetImageAltText instanceId; ConsoleError "Error fetching alt text:"] tt
           (Return (error "Error fetching alt text"))
     end) ∧
  (response (fetch req env) = Some methodNotAllowed ↔
     ((pathname req =? ROUTES.TAG_APPROVAL) || (pathname req =? ROUTES.ALTTEXT_APPROVAL))
     && negb (method req =? "POST") && negb (method req =? "OPTIONS") = true).
Proof.
  split; [|split; [|by apply method_not_allowed_iff]].
  - intros Ho Hid Hne Hp. rewrite fetch_dispatch. unfold dispatch. rewrite Ho, Hp. simpl.
    rewrite tags_block_returns by by rewrite Hp.
    rewrite Hid. destruct instanceId; [congruence|reflexivity].
  - intros Ho Hid Hne Hp. rewrite fetch_dispatch. unfold dispatch. rewrite Ho, Hp. simpl.
    rewrite alttext_block_returns by by rewrite Hp.
    rewrite andb_false_r, Hid. destruct instanceId; [congruence|reflexivity].
Qed.

Lemma tags_and_alttext_ignore_method_witness :
  fetch (Sample.request "POST" "/tags" (Some "i1")) Sample.env =
  Outcome [DbGetImageTags "i1"] tt
    (Return (success (TagsResponse "i1" (Some "cat, sofa")))).
Proof.
  apply (proj1 (tags_and_alttext_ignore_method
                  (Sample.request "POST" "/tags" (Some "i1")) Sample.env "i1"));
    [reflexivity | reflexivity | discriminate | reflexivity].
Defined.

(** C10 as stated fails: an OPTIONS request to '/tags' that carries an
    instanceId is answered by the preflight response; no lookup is
    performed and no success payload returned. *)
Lemma preflight_to_tags_skips_lookup :
  pathname (Sample.request "OPTIONS" "/tags" (Some "i1")) = ROUTES.TAGS ∧
  search_instanceId (Sample.request "OPTIONS" "/tags" (Some "i1")) = Some "i1" ∧
  fetch (Sample.request "OPTIONS" "/tags" (Some "i1")) Sample.env =
  Outcome [] tt (Return corsPreflight).
Proof. repeat split; vm_compute; reflexivity. Qed.
End WorkerFacts.

(** ** More on the poller *)
Module PollerMore.
Import Poller PollerFacts PollerExtra.

(** [stopPolling id] leaves the polls of the other identifiers alone. *)
Lemma stopped_frame id id' s :
  wf s → id' ≠ id →
  pollingIntervals (stopped id s) !! id' = pollingIntervals s !! id' ∧
  active id' (stopped id s) = active id' s.
Proof.
  intros Hwf Hne. unfold stopped.
  destruct (pollingIntervals s !! id) as [h0|] eqn:E; simpl; [|done].
  split; [by apply lookup_delete_ne|].
  unfold active. simpl. rewrite map_filter_delete. apply delete_id.
  apply map_lookup_filter_None. right. intros cb Hcb Hid. simpl in Hid.
  pose proof (wf_own _ Hwf _ _ _ E Hcb). congruence.
Qed.

(** X1. The table and the runtime agree, in every store the hook can
    reach, before the teardown and after it. Every interval the runtime
    holds fires every 3000 ms and, unless it queries '__proto__', is the
    one the table records for the identifier it queries; a table entry
    whose interval is still held queries the entry's own identifier; no
    two identifiers share a handle; and '__proto__' is never an entry. *)
Theorem table_matches_timers API_BASE_URL s :
  reachable API_BASE_URL s →
  (∀ h cb, timers s !! h = Some cb →
     i_delay cb = 3000%Z ∧
     (i_instanceId cb ≠ "__proto__" →
      pollingIntervals s !! i_instanceId cb = Some h)) ∧
  (∀ id h cb, pollingIntervals s !! id = Some h → timers s !! h = Some cb →
     i_instanceId cb = id) ∧
  (∀ id1 id2 h, pollingIntervals s !! id1 = Some h →
                pollingIntervals s !! id2 = Some h → id1 = id2) ∧
  pollingIntervals s !! "__proto__" = None.
Proof.
  intros [H1 H2 H3 Hi H4 H5 H6]%reachable_wf. split_and!; eauto.
Qed.

Lemma table_matches_timers_witness :
  pollingIntervals
    (final (cleanup (final (startPolling "__proto__" "cat.png" polling_two))))
  !! "__proto__" = None.
Proof.
  apply (table_matches_timers Sample.base).
  apply reach_cleanup, reach_start, reach_start, reach_start, reach_init.
Defined.

(** X2. Whatever the network answers, a tick does not throw; its first
    query is the status query and it issues at most two more; it hands
    the callback one or two images; and it either leaves the store as it
    is or does to it what [stopPolling] does. *)
Theorem tick_effects_bounded API_BASE_URL net id f s :
  let o := pollStatus API_BASE_URL net id f s in
  result o = Normal tt ∧
  (∃ rest, fetches (trace o) = status_url API_BASE_URL id :: rest ∧
           (length rest ≤ 2)%nat) ∧
  (1 ≤ length (callbacks (trace o)) ≤ 2)%nat ∧
  (final o = s ∨ final o = final (stopPolling id s)).
Proof.
  pose proof (pollStatus_run API_BASE_URL net id f s) as [Hres H].
  pose proof (fetchWorkflowRes_run API_BASE_URL net id f s) as (_ & _ & Hq & Hc).
  pose proof (pollStatus_final API_BASE_URL net id f s) as Hfin.
  simpl in *. rewrite stopPolling_run. simpl.
  split_and!; [done| | | |done].
  - destruct (net (status_url API_BASE_URL id)) as [|[] c [| |p]];
      try (destruct H as (_ & -> & _); exists []; simpl; split; [done|lia]).
    destruct (strict_eq_str (p_status p) "complete").
    + destruct H as (_ & -> & _). rewrite Hq. eexists. split; [done|].
      destruct (parsed _); simpl; lia.
    + destruct (truthy (p_error p)); destruct H as (_ & -> & _);
        exists []; simpl; split; (done || lia).
  - destruct (net (status_url API_BASE_URL id)) as [|[] c [| |p]];
      try (destruct H as (_ & _ & ->); simpl; lia).
    destruct (strict_eq_str (p_status p) "complete").
    + destruct H as (_ & _ & ->). rewrite Hc. simpl. lia.
    + destruct (truthy (p_error p)); destruct H as (_ & _ & ->); simpl; lia.
  - destruct (net (status_url API_BASE_URL id)) as [|[] c [| |p]];
      try (destruct H as (_ & _ & ->); simpl; lia).
    destruct (strict_eq_str (p_status p) "complete").
    + destruct H as (_ & _ & ->). rewrite Hc. simpl. lia.
    + destruct (truthy (p_error p)); destruct H as (_ & _ & ->); simpl; lia.
Qed.

(** X3. A tick never registers an interval and touches the poll of its
    own identifier only: the handle supply and the table entries and
    intervals of every other identifier are as before, and every interval
    the runtime holds afterwards it held before. *)
Theorem tick_touches_own_poll_only API_BASE_URL net id f s id' :
  reachable API_BASE_URL s →
  id' ≠ id →
  let s' := final (pollStatus API_BASE_URL net id f s) in
  pollingIntervals s' !! id' = pollingIntervals s !! id' ∧
  active id' s' = active id' s ∧
  next_timer s' = next_timer s ∧
  timers s' ⊆ timers s.
Proof.
  intros Hwf%reachable_wf Hne. simpl.
  destruct (pollStatus_final API_BASE_URL net id f s) as [-> | ->]; [done|].
  destruct (stopped_frame id id' s Hwf Hne) as [Ht Ha].
  split_and!; [done | done | apply stopped_next |].
  unfold stopped. destruct (pollingIntervals s !! id); simpl; [|done].
  apply delete_subseteq.
Qed.

Lemma tick_touches_own_poll_only_witness :
  active "i2" (final (pollStatus Sample.base Sample.net_down "i1" "cat.png" polling_two))
  = active "i2" polling_two.
Proof.
  apply (tick_touches_own_poll_only Sample.base Sample.net_down "i1" "cat.png"
           polling_two "i2").
  - apply reach_start, reach_start, reach_init.
  - discriminate.
Defined.

(** X4. [startPolling id f] registers, under a handle the runtime did
    not hold, an interval that calls the tick for [id] and [f] every
    3000 ms. For an identifier other than '__proto__' it records that
    handle for [id] in the table; for '__proto__' the table stays as it
    is and the handle is recorded nowhere. The table entries and the
    intervals of the other identifiers stay as they are. *)
Theorem startPolling_registers API_BASE_URL s id f :
  reachable API_BASE_URL s →
  let s' := final (startPolling id f s) in
  timers s !! next_timer s = None ∧
  timers s' !! next_timer s = Some (poll_of id f) ∧
  (id ≠ "__proto__" → pollingIntervals s' !! id = Some (next_timer s)) ∧
  (id = "__proto__" → pollingIntervals s' = pollingIntervals s) ∧
  (∀ id', id' ≠ id →
     pollingIntervals s' !! id' = pollingIntervals s !! id' ∧
     active id' s' = active id' s).
Proof.
  intros Hwf%reachable_wf.
  simpl. rewrite startPolling_run. unfold started. simpl. rewrite stopped_next.
  assert (Hfresh : ∀ s0, wf s0 → timers s0 !! next_timer s0 = None).
  { intros s0 Hs0. destruct (timers s0 !! next_timer s0) as [cb|] eqn:E; [|done].
    apply (wf_timers_lt _ Hs0) in E. lia. }
  split_and!.
  - by apply Hfresh.
  - apply lookup_insert_eq.
  - intros Hp. rewrite assign_other by done. apply lookup_insert_eq.
  - intros ->. rewrite stopped_absent by apply (wf_no_proto _ Hwf).
    apply assign_proto, (wf_no_proto _ Hwf).
  - intros id' Hne. destruct (stopped_frame id id' s Hwf Hne) as [Ht Ha].
    split.
    + destruct (decide (id = "__proto__")) as [->|Hp].
      * rewrite assign_proto by apply stopped_table. done.
      * rewrite assign_other by done. by rewrite lookup_insert_ne.
    + unfold active in *. simpl.
      rewrite map_filter_insert_False by (simpl; congruence).
      rewrite delete_id; [done|].
      rewrite <- (stopped_next id s). apply Hfresh. by apply wf_stopped.
Qed.

Lemma startPolling_registers_witness :
  pollingIntervals (final (startPolling "i2" "dog.png" Sample.polling)) !! "i2"
  = Some (next_timer Sample.polling).
Proof.
  apply (startPolling_registers Sample.base Sample.polling "i2" "dog.png").
  - apply reach_start, reach_init.
  - discriminate.
Defined.

(** X5. [stopPolling] undoes [startPolling], for an identifier other
    than '__proto__': starting a poll and stopping it at once leaves the
    table and the runtime's intervals as [stopPolling] alone leaves them;
    only the handle supply has moved. *)
Theorem stop_undoes_start API_BASE_URL s id f :
  reachable API_BASE_URL s →
  id ≠ "__proto__" →
  final ((startPolling id f ;;; stopPolling id) s) =
  {| pollingIntervals := pollingIntervals (final (stopPolling id s));
     timers := timers (final (stopPolling id s));
     next_timer := Pos.succ (next_timer s) |}.
Proof.
  intros Hwf%reachable_wf Hp. unfold bind.
  rewrite startPolling_run. simpl. rewrite !stopPolling_run. simpl.
  unfold stopped at 1. unfold started. simpl. rewrite assign_other by done.
  rewrite lookup_insert_eq. simpl.
  rewrite stopped_next, delete_insert_eq, delete_insert_eq.
  rewrite (delete_id _ id) by apply stopped_table.
  rewrite delete_id; [done|].
  destruct (timers (stopped id s) !! next_timer s) as [cb|] eqn:E; [|done].
  apply (wf_timers_lt _ (wf_stopped id s Hwf)) in E. rewrite stopped_next in E. lia.
Qed.

Lemma stop_undoes_start_witness :
  timers (final ((startPolling "i2" "dog.png" ;;; stopPolling "i2") Sample.polling))
  = timers (final (stopPolling "i2" Sample.polling)).
Proof.
  rewrite (stop_undoes_start Sample.base Sample.polling "i2" "dog.png"); [done| |].
  - apply reach_start, reach_init.
  - discriminate.
Defined.

(** X6. A status that is not 'complete', in a payload without an error
    indicator, is reported as it is and polling goes on: the tick issues
    the status query only, hands the callback one image with that status
    and no derived fields, and leaves the store untouched. This holds
    for every such status, the string 'error' included. *)
Theorem running_status_keeps_polling API_BASE_URL net id f s code p :
  net (status_url API_BASE_URL id) = Response true code (JsonValue p) →
  strict_eq_str (p_status p) "complete" = false →
  truthy (p_error p) = false →
  pollStatus API_BASE_URL net id f s =
  Outcome [Fetch (status_url API_BASE_URL id);
           OnStatusUpdate (verbatim_image id f (p_status p))]
          s (Normal tt).
Proof.
  unfold status_url. intros Hnet Hst Herr.
  unfold pollStatus, try_catch, bind, fetch, json, field, when, onStatusUpdate, emit,
    throw, ret.
  rewrite Hnet. simpl. rewrite Hst. simpl. rewrite Herr. reflexivity.
Qed.

Lemma running_status_keeps_polling_witness :
  pollStatus Sample.base net_running "i1" "cat.png" Sample.polling =
  Outcome [Fetch (status_url Sample.base "i1");
           OnStatusUpdate (verbatim_image "i1" "cat.png" (JStr "running"))]
          Sample.polling (Normal tt).
Proof.
  apply (running_status_keeps_polling Sample.base net_running "i1" "cat.png"
           Sample.polling 200
           {| p_status := JStr "running"; p_error := JUndefined;
              p_altText := JUndefined; p_tags := JUndefined |});
    reflexivity.
Defined.

(** X7. The teardown cleanup cancels intervals and nothing more: it
    leaves the table with all its entries, and running it a second time
    changes nothing. *)
Theorem cleanup_idempotent s :
  pollingIntervals (final (cleanup s)) = pollingIntervals s ∧
  (cleanup ;;; cleanup) s = cleanup s.
Proof.
  split; [by rewrite cleanup_run|].
  unfold bind. rewrite !cleanup_run. simpl. f_equal. f_equal.
  apply map_eq. intros h. rewrite !foldl_delete_lookup. by case_decide.
Qed.
End PollerMore.

(** ** More on the workflow *)
Module WorkflowMore.
Import Workflow WorkflowFacts WorkflowExtra.

(** X8. A run whose two gates approve and whose collaborators all answer
    performs its effects in this order: insert; the tagging wait; read
    the image, infer with the tagging prompt, write the description as
    tags; the alt-text wait; read the image again, infer with the alt-text
    prompt, write that description as alt text; and it finishes. *)
Theorem approved_run_persists_descriptions e i k db p1 p2 bytes t1 t2 :
  db_ok e (insertImage k i) = true →
  tag_gate e = SignalArrives p1 → truthy (approved p1) = true →
  alttext_gate e = SignalArrives p2 → truthy (approved p2) = true →
  bucket_get e k = Some bytes →
  ai_run e (MODEL AI_TAGS_CONFIG) (inference_input AI_TAGS_CONFIG bytes) = Some t1 →
  ai_run e (MODEL AI_ALT_TEXT_CONFIG) (inference_input AI_ALT_TEXT_CONFIG bytes)
    = Some t2 →
  db_ok e (updateImageTags i t1) = true →
  db_ok e (updateImageAltText i t2) = true →
  let o := run e i k db in
  result o = Normal tt ∧
  trace o =
    [StepDo "Insert image name into database"; Db (insertImage k i);
     tag_wait;
     StepDo "Generate AI tags"; BucketGet k;
     AiRun (MODEL AI_TAGS_CONFIG) (inference_input AI_TAGS_CONFIG bytes);
     StepDo "Update DB with AI tags"; Db (updateImageTags i t1);
     alttext_wait;
     StepDo "Generate AI Alt Text"; BucketGet k;
     AiRun (MODEL AI_ALT_TEXT_CONFIG) (inference_input AI_ALT_TEXT_CONFIG bytes);
     StepDo "Update DB with AI Alt text"; Db (updateImageAltText i t2)].
Proof.
  unfold inference_input. intros Hins Htg Htp Hag Hap Hb Ht1 Ht2 Hw1 Hw2.
  simpl. rewrite run_closed, Hins. unfold stage_outcome.
  repeat (cbv beta iota zeta delta [result trace final];
          first [rewrite Htg | rewrite Htp | rewrite Hag | rewrite Hap | rewrite Hb
                | rewrite Ht1 | rewrite Ht2 | rewrite Hw1 | rewrite Hw2]).
  done.
Qed.

Lemma approved_run_persists_descriptions_witness :
  result (run approving_both "i1" "k1" ∅) = Normal tt.
Proof.
  apply (approved_run_persists_descriptions approving_both "i1" "k1" ∅
           (Some (JBool true)) (Some (JBool true)) Sample.bytes
           "cat, orange, fur, pet, indoor" "A cat on a sofa.");
    reflexivity.
Defined.

(** X9. An approved stage whose image is not in the bucket fails the run
    with 'Image not found' right after the read: no inference call, no
    write, and no later wait. This holds for the tagging stage, and for
    the alt-text stage when the tagging signal arrived without approval. *)
Theorem missing_image_fails_run e i k db :
  db_ok e (insertImage k i) = true →
  bucket_get e k = None →
  let o := run e i k db in
  (approved_gate (tag_gate e) = true →
     result o = Throw (Error "Image not found") ∧
     trace o = [StepDo "Insert image name into database"; Db (insertImage k i);
                tag_wait; StepDo "Generate AI tags"; BucketGet k]) ∧
  (declined (tag_gate e) = true → approved_gate (alttext_gate e) = true →
     result o = Throw (Error "Image not found") ∧
     trace o = [StepDo "Insert image name into database"; Db (insertImage k i);
                tag_wait; alttext_wait; StepDo "Generate AI Alt Text"; BucketGet k]).
Proof.
  intros Hins Hb. simpl. rewrite run_closed, Hins. unfold stage_outcome.
  rewrite Hb. unfold approved_gate, declined. split.
  - intros Ha. destruct (tag_gate e) as [p| |]; [|done..]. rewrite Ha. done.
  - intros Hd Ha. destruct (tag_gate e) as [p| |]; [|done..].
    apply negb_true_iff in Hd. rewrite Hd.
    cbv beta iota zeta delta [result trace final].
    destruct (alttext_gate e) as [p'| |]; [|done..]. rewrite Ha. done.
Qed.

Lemma missing_image_fails_run_witness :
  result (run Sample.approving_tags "i1" "k2" ∅) = Throw (Error "Image not found").
Proof.
  apply (proj1 (missing_image_fails_run Sample.approving_tags "i1" "k2" ∅
                  eq_refl eq_refl)).
  reflexivity.
Defined.

Lemma touches_imply_approved e i k db :
  (existsb touches_tags (trace (run e i k db)) = true →
     approved_gate (tag_gate e) = true) ∧
  (existsb touches_altText (trace (run e i k db)) = true →
     approved_gate (alttext_gate e) = true).
Proof.
  unfold approved_gate. run_leaves;
    (split; intros Htouch; first [done | vm_compute in Htouch; discriminate Htouch]).
Qed.

(** X10. No effect of a stage without approval of its gate: whenever a
    run performs a step, an inference call or a write of the tagging
    stage, the tagging gate ended with an event whose [approved] is
    truthy; likewise for the alt-text stage. *)
Theorem inference_requires_approval e i k db :
  let o := run e i k db in
  (existsb touches_tags (trace o) = true → approved_gate (tag_gate e) = true) ∧
  (existsb touches_altText (trace o) = true → approved_gate (alttext_gate e) = true).
Proof. apply touches_imply_approved. Qed.

Lemma inference_requires_approval_witness :
  approved_gate (tag_gate Sample.approving_tags) = true.
Proof.
  apply (proj1 (inference_requires_approval Sample.approving_tags "i1" "k1" ∅)).
  vm_compute. reflexivity.
Defined.

(** X11. What a run writes is what the model said about the stored image:
    every tag text written is the description the inference call returned
    for the bytes stored under the run's image key, with the tagging
    prompt and token limit, and it is written under the run's own
    instance identifier; likewise for the alt text. The run inserts its
    own image key and identifier only, and reads the bucket at its image
    key only. *)
Theorem writes_carry_inference_results e i k db :
  let o := run e i k db in
  (∀ j t, Db (updateImageTags j t) ∈ trace o →
     j = i ∧ ∃ bytes, bucket_get e k = Some bytes ∧
       ai_run e (MODEL AI_TAGS_CONFIG) (inference_input AI_TAGS_CONFIG bytes) = Some t) ∧
  (∀ j t, Db (updateImageAltText j t) ∈ trace o →
     j = i ∧ ∃ bytes, bucket_get e k = Some bytes ∧
       ai_run e (MODEL AI_ALT_TEXT_CONFIG) (inference_input AI_ALT_TEXT_CONFIG bytes)
         = Some t) ∧
  (∀ k' j, Db (insertImage k' j) ∈ trace o → k' = k ∧ j = i) ∧
  (∀ key, BucketGet key ∈ trace o → key = k).
Proof.
  unfold inference_input. unfold tag_wait, alttext_wait. run_leaves;
    (split_and!;
     [intros j t Hin; elem_cases Hin;
      (split; [reflexivity | eexists; split; [reflexivity | eassumption]])
     |intros j t Hin; elem_cases Hin;
      (split; [reflexivity | eexists; split; [reflexivity | eassumption]])
     |intros k' j Hin; elem_cases Hin; by split
     |intros key Hin; elem_cases Hin; reflexivity]).
Qed.

Lemma writes_carry_inference_results_witness :
  ∃ bytes, bucket_get Sample.approving_tags "k1" = Some bytes ∧
    ai_run Sample.approving_tags (MODEL AI_TAGS_CONFIG)
      (inference_input AI_TAGS_CONFIG bytes) = Some "cat, orange, fur, pet, indoor".
Proof.
  apply (proj1 (writes_carry_inference_results Sample.approving_tags "i1" "k1" ∅)
           "i1" "cat, orange, fur, pet, indoor").
  rewrite run_approving_tags. simpl. rewrite !elem_of_cons. do 7 right. by left.
Defined.

(** X12. A run that finishes has written exactly the fields whose gates
    approved: tags were written if and only if the tagging gate approved,
    alt text if and only if the alt-text gate approved. *)
Theorem finished_run_wrote_approved_fields e i k db :
  let o := run e i k db in
  result o = Normal tt →
  existsb writes_tags (trace o) = approved_gate (tag_gate e) ∧
  existsb writes_altText (trace o) = approved_gate (alttext_gate e).
Proof.
  unfold approved_gate. run_leaves; intros Hfin; try discriminate Hfin;
    split; reflexivity.
Qed.

Lemma finished_run_wrote_approved_fields_witness :
  existsb writes_tags (trace (run Sample.approving_tags "i1" "k1" ∅)) = true ∧
  existsb writes_altText (trace (run Sample.approving_tags "i1" "k1" ∅)) = false.
Proof.
  apply (finished_run_wrote_approved_fields Sample.approving_tags "i1" "k1" ∅).
  reflexivity.
Defined.
End WorkflowMore.

(** ** More on the HTTP boundary *)
Module WorkerMore.
Import Worker WorkerFacts WorkerExtra.

Section Closed.
Variable env : Env.
Variable req : Request.

(** The approval blocks, case by case. *)
Lemma approval_block_closed route type :
  (pathname req =? route) = true →
  approval_block env req route type tt =
  if method req =? "POST" then
    match json req with
    | BodyReject | BodyNull =>
        Outcome [ReadJson; ConsoleError "Error processing approval:"] tt
          (Return (error "Error processing approval"))
    | BodyValue instanceId approved =>
        if truthy instanceId then
          if is_boolean approved then
            match workflow_get env instanceId with
            | None =>
                Outcome [ReadJson; WorkflowGet instanceId;
                         ConsoleError "Error processing approval:"] tt
                  (Return (error "Error processing approval"))
            | Some target =>
                if sendEvent env target type approved then
                  Outcome [ReadJson; WorkflowGet instanceId;
                           SendEvent target type approved] tt
                    (Return (success ApprovalSent))
                else
                  Outcome [ReadJson; WorkflowGet instanceId;
                           SendEvent target type approved;
                           ConsoleError "Error processing approval:"] tt
                    (Return (error "Error processing approval"))
            end
          else Outcome [ReadJson] tt (Return (badRequest "Missing or invalid parameters"))
        else Outcome [ReadJson] tt (Return (badRequest "Missing or invalid parameters"))
    end
  else Outcome [] tt (Return methodNotAllowed).
Proof.
  intros H. unfold approval_block, when. rewrite H.
  unfold try_catch, bind, call, emit, return_, throw, ret.
  destruct (method req =? "POST"); simpl; [|done].
  destruct (json req) as [| |instanceId approved]; simpl; [done..|].
  destruct (truthy instanceId); simpl; [|done].
  destruct (is_boolean approved); simpl; [|done].
  destruct (workflow_get env instanceId) as [target|]; simpl; [|done].
  by destruct (sendEvent env target type approved).
Qed.

(** The upload block, case by case. *)
Lemma create_block_closed :
  (method req =? "POST") = true → (pathname req =? "/") = true →
  create_block env req tt =
  match content_type req with
  | None =>
      Outcome [] tt
        (Return (badRequest "Invalid content type. Expected multipart/form-data"))
  | Some contentType =>
      if truthy (JStr contentType) then
        if includes contentType "multipart/form-data" then
          match formData req with
          | None =>
              Outcome [ReadFormData; ConsoleError "Error processing image upload:"] tt
                (Return (error "Error processing image upload"))
          | Some (FileEntry f) =>
              if bucket_put env (nanoid env) f then
                match workflow_create env (nanoid env) with
                | None =>
                    Outcome [ReadFormData; Nanoid; BucketPut (nanoid env) f;
                             WorkflowCreate (nanoid env);
                             ConsoleError "Error processing image upload:"] tt
                      (Return (error "Error processing image upload"))
                | Some target =>
                    match instance_status env target with
                    | None =>
                        Outcome [ReadFormData; Nanoid; BucketPut (nanoid env) f;
                                 WorkflowCreate (nanoid env); InstanceStatusQuery target;
                                 ConsoleError "Error processing image upload:"] tt
                          (Return (error "Error processing image upload"))
                    | Some details =>
                        Outcome [ReadFormData; Nanoid; BucketPut (nanoid env) f;
                                 WorkflowCreate (nanoid env); InstanceStatusQuery target] tt
                          (Return (success (UploadStarted (id target) details
                                              "Image upload started successfully")))
                    end
                end
              else
                Outcome [ReadFormData; Nanoid; BucketPut (nanoid env) f;
                         ConsoleError "Error processing image upload:"] tt
                  (Return (error "Error processing image upload"))
          | Some _ =>
              Outcome [ReadFormData] tt (Return (badRequest "Missing or invalid image file"))
          end
        else
          Outcome [] tt
            (Return (badRequest "Invalid content type. Expected multipart/form-data"))
      else
        Outcome [] tt
          (Return (badRequest "Invalid content type. Expected multipart/form-data"))
  end.
Proof.
  intros Hm Hp. unfold create_block, when. rewrite Hm, Hp.
  unfold try_catch, bind, call, emit, return_, throw, ret. simpl andb. cbv iota.
  destruct (content_type req) as [contentType|]; [|done].
  destruct (truthy (JStr contentType)); [|done].
  destruct (includes contentType "multipart/form-data"); [|done]. simpl.
  destruct (formData req) as [[| |f]|]; simpl; [done..| |done].
  destruct (bucket_put env (nanoid env) f); simpl; [|done].
  destruct (workflow_create env (nanoid env)) as [target|]; simpl; [|done].
  by destruct (instance_status env target).
Qed.

(** The status block, case by case. *)
Lemma status_block_closed :
  (method req =? "GET") = true → (pathname req =? "/") = true →
  status_block env req tt =
  match search_instanceId req with
  | None | Some "" => Outcome [] tt (Return (badRequest "Missing instanceId parameter"))
  | Some instanceId =>
      match workflow_get env (JStr instanceId) with
      | None =>
          Outcome [WorkflowGet (JStr instanceId);
                   ConsoleError "Error getting workflow status:"] tt
            (Return (error "Error getting workflow status"))
      | Some target =>
          match instance_status env target with
          | None =>
              Outcome [WorkflowGet (JStr instanceId); InstanceStatusQuery target;
                       ConsoleError "Error getting workflow status:"] tt
                (Return (error "Error getting workflow status"))
          | Some st =>
              Outcome [WorkflowGet (JStr instanceId); InstanceStatusQuery target] tt
                (Return (success (StatusReport st)))
          end
      end
  end.
Proof.
  intros Hm Hp. unfold status_block, when. rewrite Hm, Hp. simpl andb. cbv iota.
  destruct (search_instanceId req) as [[|c s]|]; [done| |done].
  unfold try_catch, bind, call, emit, return_, throw, ret.
  destruct (workflow_get env (JStr (String c s))) as [target|]; simpl; [|done].
  by destruct (instance_status env target).
Qed.
End Closed.

(** Case analysis on everything a call of the handler depends on. *)
Ltac fetch_step :=
  match goal with
  | |- context [tags_block _ _ tt] => rewrite tags_block_returns by assumption
  | |- context [alttext_block _ _ tt] => rewrite alttext_block_returns by assumption
  | |- context [approval_block _ _ _ _ tt] => rewrite approval_block_closed by assumption
  | |- context [create_block _ _ tt] => rewrite create_block_closed by assumption
  | |- context [status_block _ _ tt] => rewrite status_block_closed by assumption
  | |- context [match ?x with _ => _ end] =>
      lazymatch x with
      | String.eqb _ _ => destruct x eqn:?
      | startsWith _ _ => destruct x eqn:?
      | includes _ _ => destruct x eqn:?
      | truthy _ => destruct x eqn:?
      | is_boolean _ => destruct x eqn:?
      | json _ => destruct x eqn:?
      | search_instanceId _ => destruct x eqn:?
      | content_type _ => destruct x eqn:?
      | formData _ => destruct x eqn:?
      | getImageTags _ _ => destruct x eqn:?
      | getImageAltText _ _ => destruct x eqn:?
      | workflow_get _ _ => destruct x eqn:?
      | workflow_create _ _ => destruct x eqn:?
      | sendEvent _ _ _ _ => destruct x eqn:?
      | instance_status _ _ => destruct x eqn:?
      | bucket_put _ _ _ => destruct x eqn:?
      | _ => is_var x; destruct x
      end
  end.

Ltac fetch_leaves :=
  rewrite ?fetch_dispatch; unfold dispatch;
  repeat (cbv beta iota zeta delta [andb orb negb trace result final response];
          try fetch_step).

(** X13. The handler answers every request: whatever the request and
    whatever the collaborators do, a call ends with a response; no
    exception escapes it and no path falls through. *)
Theorem fetch_always_responds req env :
  ∃ t r, fetch req env = Outcome t tt (Return r).
Proof. fetch_leaves; by eexists _, _. Qed.

Ltac elem_cases H :=
  repeat (apply elem_of_cons in H as [H|H]; [simplify_eq|]);
  try (by apply elem_of_nil in H).

Ltac eqb_hyps :=
  repeat match goal with
         | H : (_ =? _) = true |- _ => apply String.eqb_eq in H
         end.

(** X14. A lookup without identifier is refused before anything is looked
    up: a request to '/tags', to '/alttext' or a GET of '/' whose
    instanceId parameter is absent or empty gets 400 'Missing instanceId
    parameter', and the handler calls no collaborator. *)
Theorem missing_instanceId_rejected req env :
  (method req =? "OPTIONS") = false →
  missing (search_instanceId req) = true →
  (pathname req = ROUTES.TAGS ∨ pathname req = ROUTES.ALTTEXT ∨
   (pathname req = "/" ∧ method req = "GET")) →
  fetch req env = Outcome [] tt (Return (badRequest "Missing instanceId parameter")).
Proof.
  intros Ho Hm Hp. rewrite fetch_dispatch. unfold dispatch. rewrite Ho.
  destruct Hp as [Hp|[Hp|[Hp Hg]]]; rewrite Hp; simpl.
  - rewrite tags_block_returns by by rewrite Hp.
    by destruct (search_instanceId req) as [[|c s]|].
  - rewrite andb_false_r. rewrite alttext_block_returns by by rewrite Hp.
    by destruct (search_instanceId req) as [[|c s]|].
  - rewrite Hg. simpl. rewrite status_block_closed by by rewrite ?Hp, ?Hg.
    by destruct (search_instanceId req) as [[|c s]|].
Qed.

Lemma missing_instanceId_rejected_witness :
  fetch (Sample.request "GET" "/" (Some "")) Sample.env =
  Outcome [] tt (Return (badRequest "Missing instanceId parameter")).
Proof.
  apply (missing_instanceId_rejected (Sample.request "GET" "/" (Some "")) Sample.env);
    [reflexivity | reflexivity | right; right; by split].
Defined.

(** Where an event sent to a workflow comes from. *)
Lemma send_event_origin req env target ty ap :
  SendEvent target ty ap ∈ trace (fetch req env) →
  method req = "POST" ∧
  ((pathname req = ROUTES.TAG_APPROVAL ∧ ty = "approval-for-ai-tagging") ∨
   (pathname req = ROUTES.ALTTEXT_APPROVAL ∧ ty = "approval-for-ai-alttext")) ∧
  ∃ instanceId, json req = BodyValue instanceId ap ∧ truthy instanceId = true ∧
                is_boolean ap = true ∧ workflow_get env instanceId = Some target.
Proof.
  fetch_leaves; intros Hin; elem_cases Hin; eqb_hyps;
    (split_and!;
     [assumption
     |first [left; split; [assumption|reflexivity] | right; split; [assumption|reflexivity]]
     |eexists; split_and!; first [reflexivity | eassumption]]).
Qed.

(** X15. An event reaches a workflow only through a valid approval: the
    handler sends an event only when serving a POST to one of the two
    approval routes whose JSON body has a truthy instanceId and a boolean
    approved; the event goes to the instance the engine returned for that
    identifier, carries that boolean, and has the type of the route. *)
Theorem event_sent_only_for_valid_approval req env target ty ap :
  SendEvent target ty ap ∈ trace (fetch req env) →
  method req = "POST" ∧
  ((pathname req = ROUTES.TAG_APPROVAL ∧ ty = "approval-for-ai-tagging") ∨
   (pathname req = ROUTES.ALTTEXT_APPROVAL ∧ ty = "approval-for-ai-alttext")) ∧
  ∃ instanceId, json req = BodyValue instanceId ap ∧ truthy instanceId = true ∧
                is_boolean ap = true ∧ workflow_get env instanceId = Some target.
Proof. apply send_event_origin. Qed.

Lemma event_sent_only_for_valid_approval_witness :
  method (post_json ROUTES.TAG_APPROVAL (BodyValue (JStr "i1") (JBool true))) = "POST".
Proof.
  apply (event_sent_only_for_valid_approval
           (post_json ROUTES.TAG_APPROVAL (BodyValue (JStr "i1") (JBool true))) engine
           {| id := "i1" |} "approval-for-ai-tagging" (JBool true)).
  assert (trace (fetch (post_json ROUTES.TAG_APPROVAL
                          (BodyValue (JStr "i1") (JBool true))) engine)
          = [ReadJson; WorkflowGet (JStr "i1");
             SendEvent {| id := "i1" |} "approval-for-ai-tagging" (JBool true)])
    as -> by (vm_compute; reflexivity).
  rewrite !elem_of_cons. do 2 right. by left.
Defined.

(** X16. A POST to an approval route whose body fails validation never
    reaches the engine. A JSON body whose instanceId is falsy or whose
    approved is not a boolean gets 400 after the body is read and nothing
    else is done; a body that is not JSON, or is the JSON value null,
    gets 500, not 400, and is logged. *)
Theorem invalid_approval_never_reaches_engine req env :
  method req = "POST" →
  (pathname req = ROUTES.TAG_APPROVAL ∨ pathname req = ROUTES.ALTTEXT_APPROVAL) →
  match json req with
  | BodyValue instanceId approved =>
      truthy instanceId && is_boolean approved = false →
      fetch req env =
      Outcome [ReadJson] tt (Return (badRequest "Missing or invalid parameters"))
  | _ =>
      fetch req env =
      Outcome [ReadJson; ConsoleError "Error processing approval:"] tt
        (Return (error "Error processing approval"))
  end.
Proof.
  intros Hm Hp. rewrite fetch_dispatch. unfold dispatch. rewrite Hm.
  destruct Hp as [Hp|Hp]; rewrite Hp; simpl;
    (rewrite approval_block_closed by by rewrite Hp); rewrite Hm; simpl;
    (destruct (json req) as [| |instanceId approved]; [done..|]);
    by destruct (truthy instanceId), (is_boolean approved).
Qed.

Lemma invalid_approval_never_reaches_engine_witness :
  fetch (post_json ROUTES.TAG_APPROVAL (BodyValue (JStr "i1") (JStr "yes"))) engine =
  Outcome [ReadJson] tt (Return (badRequest "Missing or invalid parameters")).
Proof.
  apply (invalid_approval_never_reaches_engine
           (post_json ROUTES.TAG_APPROVAL (BodyValue (JStr "i1") (JStr "yes"))) engine
           eq_refl (or_introl eq_refl)).
  reflexivity.
Defined.

(** X17. An upload needs a multipart content type and a file. A POST to
    '/' whose content type is absent or does not contain
    'multipart/form-data' gets 400 before its body is read; one with such
    a content type whose 'image' field is absent or is text gets 400
    after the form is read, and nothing is stored. *)
Theorem upload_needs_multipart_file req env :
  method req = "POST" →
  pathname req = "/" →
  (match content_type req with
   | Some contentType => includes contentType "multipart/form-data" = false
   | None => True
   end →
   fetch req env =
   Outcome [] tt
     (Return (badRequest "Invalid content type. Expected multipart/form-data"))) ∧
  (∀ contentType,
     content_type req = Some contentType →
     includes contentType "multipart/form-data" = true →
     match formData req with
     | Some NoEntry | Some (TextEntry _) => True
     | _ => False
     end →
     fetch req env =
     Outcome [ReadFormData] tt (Return (badRequest "Missing or invalid image file"))).
Proof.
  intros Hm Hp.
  assert (Hfetch : fetch req env = create_block env req tt).
  { rewrite fetch_dispatch. unfold dispatch. by rewrite Hm, Hp. }
  rewrite Hfetch, create_block_closed by by rewrite ?Hm, ?Hp.
  split.
  - destruct (content_type req) as [ct|]; [|done]. intros ->.
    by destruct (truthy (JStr ct)).
  - intros ct -> Hinc Hform. rewrite Hinc.
    assert (truthy (JStr ct) = true) as -> by by destruct ct.
    by destruct (formData req) as [[| |f]|].
Qed.

Lemma upload_needs_multipart_file_witness :
  fetch (post_json "/" BodyReject) engine =
  Outcome [] tt
    (Return (badRequest "Invalid content type. Expected multipart/form-data")).
Proof.
  apply (proj1 (upload_needs_multipart_file (post_json "/" BodyReject) engine
                  eq_refl eq_refl)).
  reflexivity.
Defined.

(** X18. No workflow without a stored image: the handler creates a
    workflow only when serving a POST to '/' that carries a file, only
    for the key [nanoid] gave, and only right after the bucket accepted
    the file under that same key. *)
Theorem workflow_only_for_stored_image req env key :
  WorkflowCreate key ∈ trace (fetch req env) →
  method req = "POST" ∧ pathname req = "/" ∧ key = nanoid env ∧
  ∃ f, formData req = Some (FileEntry f) ∧ bucket_put env key f = true ∧
       ∃ rest, trace (fetch req env) =
               ([ReadFormData; Nanoid; BucketPut key f; WorkflowCreate key] ++ rest)%list.
Proof.
  fetch_leaves; intros Hin; elem_cases Hin; eqb_hyps;
    (split_and!; [assumption | assumption | reflexivity |]);
    (eexists; split_and!; [reflexivity | eassumption | by eexists]).
Qed.

Lemma workflow_only_for_stored_image_witness :
  bucket_put engine (nanoid engine) cat_png = true.
Proof.
  destruct (workflow_only_for_stored_image (upload cat_png) engine (nanoid engine))
    as (_ & _ & _ & f & Hf & Hput & _).
  - assert (trace (fetch (upload cat_png) engine)
            = [ReadFormData; Nanoid; BucketPut (nanoid engine) cat_png;
               WorkflowCreate (nanoid engine); InstanceStatusQuery {| id := "i1" |}])
      as -> by (vm_compute; reflexivity).
    rewrite !elem_of_cons. do 3 right. by left.
  - injection Hf as <-. exact Hput.
Defined.

(** X19. A successful upload reports the instance it created: when the
    handler answers an upload with success, the identifier in the answer
    is the one of the workflow created for the stored key, the details
    are that instance's status, and the handler did exactly this: read
    the form, drew a key, stored the file, created the workflow, asked
    its status. *)
Theorem upload_success_reports_instance req env i details message :
  response (fetch req env) = Some (success (UploadStarted i details message)) →
  ∃ f target,
    formData req = Some (FileEntry f) ∧
    bucket_put env (nanoid env) f = true ∧
    workflow_create env (nanoid env) = Some target ∧
    i = id target ∧
    instance_status env target = Some details ∧
    trace (fetch req env) =
      [ReadFormData; Nanoid; BucketPut (nanoid env) f; WorkflowCreate (nanoid env);
       InstanceStatusQuery target].
Proof.
  fetch_leaves; intros Hr; simplify_eq;
    eexists _, _; split_and!; first [reflexivity | eassumption].
Qed.

Lemma upload_success_reports_instance_witness :
  ∃ f target,
    formData (upload cat_png) = Some (FileEntry f) ∧
    bucket_put engine (nanoid engine) f = true ∧
    workflow_create engine (nanoid engine) = Some target ∧
    "i1" = id target ∧
    instance_status engine target
      = Some {| is_status := "running"; is_error := JUndefined |} ∧
    trace (fetch (upload cat_png) engine) =
      [ReadFormData; Nanoid; BucketPut (nanoid engine) f; WorkflowCreate (nanoid engine);
       InstanceStatusQuery target].
Proof.
  apply (upload_success_reports_instance (upload cat_png) engine "i1"
           {| is_status := "running"; is_error := JUndefined |}
           "Image upload started successfully").
  vm_compute. reflexivity.
Defined.

(** X20. A 500 is always logged, and nothing else is: the handler answers
    with the error response exactly when it wrote to the console, and
    then the console line is the last thing it did. *)
Theorem server_errors_are_logged req env :
  let o := fetch req env in
  ((∃ m, response o = Some (error m)) ↔ existsb is_console_error (trace o) = true) ∧
  (existsb is_console_error (trace o) = true →
   ∃ label, last (trace o) = Some (ConsoleError label)).
Proof.
  cbv zeta. fetch_leaves; (split; [split|]);
    first [ by intros [m [=]] | by intros [=] | by eexists ].
Qed.

Lemma server_errors_are_logged_witness :
  ∃ label,
    last (trace (fetch (post_json ROUTES.TAG_APPROVAL BodyNull) engine))
    = Some (ConsoleError label).
Proof.
  apply (proj2 (server_errors_are_logged (post_json ROUTES.TAG_APPROVAL BodyNull) engine)).
  vm_compute. reflexivity.
Defined.

(** X21. Only a POST changes anything: a call of the handler that sends
    an event, stores an object or creates a workflow serves a request
    whose method is POST. Every other method is read-only. *)
Theorem non_post_requests_write_nothing req env :
  existsb writes (trace (fetch req env)) = true → method req = "POST".
Proof.
  fetch_leaves; intros Hw; first [discriminate Hw | by eqb_hyps].
Qed.

Lemma non_post_requests_write_nothing_witness :
  method (upload cat_png) = "POST".
Proof.
  apply (non_post_requests_write_nothing (upload cat_png) engine).
  vm_compute. reflexivity.
Defined.
End WorkerMore.

(** ** From the approval route to the gate *)
Module EndToEnd.

(** X22. The decision posted to an approval route is the one that gates
    inference. If the handler sent the tagging event with payload
    [approved] and the tagging gate of a run ends with that payload, then
    the request body carried a boolean [approved], and the run performs
    an effect of the tagging stage only if that boolean is true; likewise
    for the alt-text route and gate. *)
Theorem approval_decision_gates_inference req env target ap e i k db :
  (Worker.SendEvent target "approval-for-ai-tagging" ap ∈ trace (Worker.fetch req env) →
   Workflow.tag_gate e = Workflow.SignalArrives (Some ap) →
   ∃ instanceId b,
     Worker.json req = Worker.BodyValue instanceId (JBool b) ∧
     (existsb Workflow.touches_tags (trace (Workflow.run e i k db)) = true → b = true)) ∧
  (Worker.SendEvent target "approval-for-ai-alttext" ap ∈ trace (Worker.fetch req env) →
   Workflow.alttext_gate e = Workflow.SignalArrives (Some ap) →
   ∃ instanceId b,
     Worker.json req = Worker.BodyValue instanceId (JBool b) ∧
     (existsb Workflow.touches_altText (trace (Workflow.run e i k db)) = true → b = true)).
Proof.
  pose proof (WorkflowMore.touches_imply_approved e i k db) as [Ht Ha].
  split; intros Hsent Hgate;
    apply WorkerMore.send_event_origin in Hsent
      as (_ & _ & instanceId & Hbody & _ & Hbool & _);
    (destruct ap as [| |b| | |]; try discriminate Hbool);
    exists instanceId, b; (split; [done|]); intros Htouch.
  - apply Ht in Htouch. by rewrite Hgate in Htouch.
  - apply Ha in Htouch. by rewrite Hgate in Htouch.
Qed.

Lemma approval_decision_gates_inference_witness :
  ∃ instanceId b,
    Worker.json (WorkerExtra.post_json Worker.ROUTES.TAG_APPROVAL
                   (Worker.BodyValue (JStr "i1") (JBool true)))
    = Worker.BodyValue instanceId (JBool b) ∧
    (existsb Workflow.touches_tags
       (trace (Workflow.run Workflow.Sample.approving_tags "i1" "k1" ∅)) = true →
     b = true).
Proof.
  apply (proj1 (approval_decision_gates_inference
                  (WorkerExtra.post_json Worker.ROUTES.TAG_APPROVAL
                     (Worker.BodyValue (JStr "i1") (JBool true)))
                  WorkerExtra.engine {| Worker.id := "i1" |} (JBool true)
                  Workflow.Sample.approving_tags "i1" "k1" ∅)).
  - assert (trace (Worker.fetch
                     (WorkerExtra.post_json Worker.ROUTES.TAG_APPROVAL
                        (Worker.BodyValue (JStr "i1") (JBool true)))
                     WorkerExtra.engine)
            = [Worker.ReadJson; Worker.WorkflowGet (JStr "i1");
               Worker.SendEvent {| Worker.id := "i1" |} "approval-for-ai-tagging"
                 (JBool true)])
      as -> by (vm_compute; reflexivity).
    rewrite !elem_of_cons. do 2 right. by left.
  - reflexivity.
Defined.
End EndToEnd.
